(** * Gaant: the Supabase storage adapter (src/supabase-storage.js)

    A shallow embedding of the adapter's module state and of the accessors
    [window.ganttStorage] exposes, with the properties its specification
    states about the two session caches.

    Modelling choices.
    - The closure variables [supabase], [projectsListCache],
      [boardDataCache] and [authCallback] are the fields of [State].
    - JavaScript arrays and plain objects are heap cells reached through
      references, so that handing out or storing an array shares it, and
      [JSON.parse(JSON.stringify(x))] builds a graph of new cells.
    - [boardDataCache] is an object made by [{}] and used as a dictionary
      from board ids to row objects. Its own properties are a [gmap]. A
      name it has no own property for is looked up in [Object.prototype],
      which answers for twelve names ([constructor], [toString],
      [__proto__] and the like) with an object of its own: [entry] is
      that lookup, and [inherited] holds what the setters have written on
      those objects. An id the backend hands out is a uuid of the
      [boards] table, so [boardDataCache[id] = row] under such an id
      makes an own property.
    - Numbers are integers: all the adapter does with a number is test
      whether it is falsy and pass it on.
    - An [async] function takes the answers of the backend it awaits as
      arguments and runs to completion; what it asks of the backend, what
      it prints with [console.warn], and every call of the registered
      session callback (with the caches as they are at that moment) are
      appended to [log] in program order. *)

From Stdlib Require Import ZArith Lia.
From stdpp Require Import gmap strings list fin_maps.

(** ** JavaScript values *)

(** Heap locations. *)
Abbreviation loc := nat (only parsing).

Inductive Val :=
  | VUndefined
  | VNull
  | VBool (b : bool)
  | VNum (n : Z)
  | VStr (s : string)
  | VRef (l : loc).

(** A heap cell: an array, or a plain object with its own properties in
    insertion order. *)
Inductive Obj :=
  | OArr (elems : list Val)
  | ORec (props : list (string * Val)).

(** [!!v]: the values JavaScript treats as true in a condition. *)
Definition truthy (v : Val) : bool :=
  match v with
  | VUndefined | VNull => false
  | VBool b => b
  | VNum n => negb (n =? 0)%Z
  | VStr s => negb (String.eqb s "")
  | VRef _ => true
  end.

(** An array or object literal allocates a new cell. *)
Definition alloc (o : Obj) (h : list Obj) : Val * list Obj :=
  (VRef (length h), h ++ [o]).

(** [v || <literal o>]: the literal is only built when [v] is falsy. *)
Definition or_new (v : Val) (o : Obj) (h : list Obj) : Val * list Obj :=
  if truthy v then (v, h) else alloc o h.

(** [v || d] for a primitive [d]. *)
Definition or_else (v d : Val) : Val :=
  if truthy v then v else d.





(** ** JSON *)

#[warnings="-register-all"]
Inductive Json :=
  | JNull
  | JBool (b : bool)
  | JNum (n : Z)
  | JStr (s : string)
  | JArr (items : list Json)
  | JObj (members : list (string * Json)).

(** Threads the heap through the elements of a list, left to right. *)
Definition mapS {A B : Type} (f : A → list Obj → B * list Obj) :
    list A → list Obj → list B * list Obj :=
  fix go xs h :=
    match xs with
    | [] => ([], h)
    | x :: xs' =>
        let '(y, h1) := f x h in
        let '(ys, h2) := go xs' h1 in
        (y :: ys, h2)
    end.

(** [JSON.parse] on the text of [j]: every array and object of [j] becomes
    a new cell. *)
Fixpoint of_json (j : Json) (h : list Obj) : Val * list Obj :=
  match j with
  | JNull => (VNull, h)
  | JBool b => (VBool b, h)
  | JNum n => (VNum n, h)
  | JStr s => (VStr s, h)
  | JArr items =>
      let '(vs, h1) := mapS of_json items h in
      alloc (OArr vs) h1
  | JObj members =>
      let '(ps, h1) :=
        mapS (λ m h0, match m with
                      | (k, j') => let '(v, h') := of_json j' h0 in ((k, v), h')
                      end) members h in
      alloc (ORec ps) h1
  end.

(** The tree [JSON.stringify] writes for [v], read back as a tree.
    [Some None] is the [undefined] it yields for [undefined]; inside an
    array that becomes [null], inside an object the property is left out.
    [None]: no text is produced, the call throws (a cycle is met, which
    shows as the recursion outliving [fuel]). *)
Fixpoint serialize (fuel : nat) (h : list Obj) (v : Val) : option (option Json) :=
  match fuel with
  | O => None
  | S n =>
      match v with
      | VUndefined => Some None
      | VNull => Some (Some JNull)
      | VBool b => Some (Some (JBool b))
      | VNum z => Some (Some (JNum z))
      | VStr s => Some (Some (JStr s))
      | VRef l =>
          match h !! l with
          | None => None
          | Some (OArr vs) =>
              js ← mapM (λ v', default JNull <$> serialize n h v') vs;
              Some (Some (JArr js))
          | Some (ORec ps) =>
              ms ← mapM (λ p, (λ r, (p.1, r)) <$> serialize n h p.2) ps;
              Some (Some (JObj (omap (λ m, (λ j, (m.1, j)) <$> m.2) ms)))
          end
      end
  end.

(** A way down without a cycle visits each cell at most once, so one unit
    of fuel per cell and one for the leaf is what any value without a
    cycle needs ([stringify_enough_fuel] below). *)
Definition JSON_stringify (h : list Obj) (v : Val) : option (option Json) :=
  serialize (S (length h)) h v.

(** [JSON.parse(JSON.stringify(v))]; [None] when either call throws
    ([JSON.parse(undefined)] is a SyntaxError). *)
Definition JSON_clone (v : Val) (h : list Obj) : option (Val * list Obj) :=
  match JSON_stringify h v with
  | Some (Some j) => Some (of_json j h)
  | _ => None
  end.

(** The cells a value leads to: what a caller holding [v] can mutate. *)
Inductive reachable (h : list Obj) : Val → loc → Prop :=
  | reach_self l : reachable h (VRef l) l
  | reach_elem l vs v l' :
      h !! l = Some (OArr vs) → v ∈ vs → reachable h v l' →
      reachable h (VRef l) l'
  | reach_prop l ps k v l' :
      h !! l = Some (ORec ps) → (k, v) ∈ ps → reachable h v l' →
      reachable h (VRef l) l'.

Definition children (o : Obj) : list Val :=
  match o with
  | OArr vs => vs
  | ORec ps => ps.*2
  end.

(** A way down from [v]: each cell of the list holds the next, and the
    last holds some value. *)
Inductive chain (h : list Obj) : Val → list loc → Prop :=
  | chain_nil v : chain h v []
  | chain_cons l o v p :
      h !! l = Some o → v ∈ children o → chain h v p →
      chain h (VRef l) (l :: p).

(** [h2] has every cell of [h], unchanged. *)
Definition keeps (h h2 : list Obj) : Prop :=
  ∀ l o, h !! l = Some o → h2 !! l = Some o.

(** [v] is truthy and [JSON.stringify(v)] yields a text, or [v] is falsy
    (and the literal put in its place is what gets serialised). *)
Definition clonable (h : list Obj) (v : Val) : bool :=
  if truthy v
  then match JSON_stringify h v with Some (Some _) => true | _ => false end
  else true.

(** Nesting depth of a tree, counting the leaf. *)
Fixpoint height (j : Json) : nat :=
  match j with
  | JArr items => S (foldr (λ j' m, Nat.max (height j') m) 0 items)
  | JObj members => S (foldr (λ m n, Nat.max (height m.2) n) 0 members)
  | _ => 1
  end.

(** [v], made in a heap [h] that grew into [h'], is a copy of [j] that
    owns its cells: it serialises to [j] in every heap keeping the cells
    of [h'], and all it reaches was made between [h] and [h']. *)
Definition copied (j : Json) (h : list Obj) (v : Val) (h' : list Obj) : Prop :=
  height j ≤ S (length h' - length h)
  ∧ (∀ n h2, height j ≤ n → keeps h' h2 → serialize n h2 v = Some (Some j))
  ∧ (∀ h2 l, keeps h' h2 → reachable h2 v l → length h ≤ l < length h').

(** ** Module state *)

Record Client := { url : string; anonKey : string }.

Record Session := { user_id : string }.

Definition Callback := nat.

(** An entry of [projectsListCache]: [{ id, name, createdAt }]. *)
Module Summary.
Record t := make { id : string; name : string; createdAt : Z }.
End Summary.

(** An entry of [boardDataCache]. *)
Record BoardRow := {
  tasks : Val;
  settings : Val;
  view : Val;
  custom_palettes : Val }.

(** What the adapter does to the outside, in program order. Of an upsert
    the [updated_at] stamp is left out; [Notify] records the argument of
    the session callback and both caches as they stand when it is called. *)
Inductive Effect :=
  | AuthGetSession
  | AuthSignOut
  | SelectBoards (owner_id : string)
  | SelectBoardData (board_id : string)
  | UpsertBoardData (board_id : string) (row : BoardRow)
  | InsertBoard (owner_id name : string)
  | InsertBoardData (board_id : string)
  | DeleteBoard (board_id : string)
  | Warn (what : string)
  | Notify (cb : Callback) (session : option Session)
      (seenList : list Summary.t) (seenBoards : gmap string BoardRow).

(** [inherited] is no closure variable: it is what the page's
    [Object.prototype], and the functions found in it, have been given as
    properties, by object name and property name. The module reads and
    writes it through [boardDataCache[k]]. *)
Record State := {
  supabase : option Client;
  projectsListCache : list Summary.t;
  boardDataCache : gmap string BoardRow;
  authCallback : option Callback;
  heap : list Obj;
  log : list Effect;
  inherited : gmap string (gmap string Val) }.

Definition set_projectsListCache (l : list Summary.t) (st : State) : State :=
  {| supabase := supabase st; projectsListCache := l;
     boardDataCache := boardDataCache st; authCallback := authCallback st;
     heap := heap st; log := log st; inherited := inherited st |}.

Definition set_boardDataCache (c : gmap string BoardRow) (st : State) : State :=
  {| supabase := supabase st; projectsListCache := projectsListCache st;
     boardDataCache := c; authCallback := authCallback st;
     heap := heap st; log := log st; inherited := inherited st |}.

Definition set_heap (h : list Obj) (st : State) : State :=
  {| supabase := supabase st; projectsListCache := projectsListCache st;
     boardDataCache := boardDataCache st; authCallback := authCallback st;
     heap := h; log := log st; inherited := inherited st |}.

Definition set_inherited (i : gmap string (gmap string Val)) (st : State) : State :=
  {| supabase := supabase st; projectsListCache := projectsListCache st;
     boardDataCache := boardDataCache st; authCallback := authCallback st;
     heap := heap st; log := log st; inherited := i |}.

Definition emit (e : Effect) (st : State) : State :=
  {| supabase := supabase st; projectsListCache := projectsListCache st;
     boardDataCache := boardDataCache st; authCallback := authCallback st;
     heap := heap st; log := log st ++ [e]; inherited := inherited st |}.

(** [if (authCallback) authCallback(session)]. *)
Definition notify (session : option Session) (st : State) : State :=
  match authCallback st with
  | Some cb =>
      emit (Notify cb session (projectsListCache st) (boardDataCache st)) st
  | None => st
  end.

(** [!!projectId] for an argument that is a string or was not passed. *)
Definition given (projectId : option string) : bool :=
  match projectId with
  | Some s => negb (String.eqb s "")
  | None => false
  end.

(** The property name [boardDataCache[projectId]] looks up. *)
Definition key (projectId : option string) : string :=
  match projectId with
  | Some s => s
  | None => "undefined"
  end.

(** ** What the cache inherits *)

(** The property names of [Object.prototype]. *)
Definition inheritedNames : list string :=
  ["constructor"; "__defineGetter__"; "__defineSetter__"; "hasOwnProperty";
   "__lookupGetter__"; "__lookupSetter__"; "isPrototypeOf";
   "propertyIsEnumerable"; "toString"; "valueOf"; "__proto__";
   "toLocaleString"].

(** [k in {}]. *)
Definition inherits (k : string) : bool :=
  existsb (String.eqb k) inheritedNames.

(** [o.p] for the object [o] found under the inherited name [k]: the
    property [p] written on [o] itself, else the one written on
    [Object.prototype] (which is the object found under [__proto__], and
    which the eleven functions found under the other names inherit from),
    else [undefined]. *)
Definition inheritedProp (k p : string) (st : State) : Val :=
  match default ∅ (inherited st !! k) !! p with
  | Some v => v
  | None => default VUndefined (default ∅ (inherited st !! "__proto__") !! p)
  end.

(** The four properties the adapter reads of a row, read of the object
    found under the inherited name [k]. *)
Definition inheritedRow (k : string) (st : State) : BoardRow :=
  {| tasks := inheritedProp k "tasks" st;
     settings := inheritedProp k "settings" st;
     view := inheritedProp k "view" st;
     custom_palettes := inheritedProp k "custom_palettes" st |}.

(** [boardDataCache[k]], with the four properties the adapter reads of
    it: the row the cache holds as its own property [k]; without one, the
    object inherited under the name [k]; [undefined] (here [None])
    otherwise. *)
Definition entry (k : string) (st : State) : option BoardRow :=
  match boardDataCache st !! k with
  | Some row => Some row
  | None => if inherits k then Some (inheritedRow k st) else None
  end.

(** ** Backend answers *)

Record PgError := { code : string; message : string }.

(** [{ data, error }] as the client resolves a query. *)
Record Response (A : Type) := { data : option A; error : option PgError }.
Arguments data {A} _.
Arguments error {A} _.

(** The [board_data] columns the adapter selects, as delivered. *)
Record BoardDataJson := {
  tasks_json : Json;
  settings_json : Json;
  view_json : Json;
  custom_palettes_json : Json }.

(** A row of [boards]; [created_at] is carried as the instant it denotes
    in ms since the epoch, what [new Date(row.created_at).getTime()] gives. *)
Record BoardsRow := {
  row_id : string;
  row_name : string;
  row_created_at : Z }.

(** [!!x] for the value a JSON tree parses to. *)
Definition json_truthy (j : Json) : bool :=
  match j with
  | JNull => false
  | JBool b => b
  | JNum n => negb (n =? 0)%Z
  | JStr s => negb (String.eqb s "")
  | JArr _ | JObj _ => true
  end.

(** [x || d] on trees. *)
Definition json_or (j d : Json) : Json :=
  if json_truthy j then j else d.

(** The document [ensureBoardDataLoaded] is to cache for an answer: the
    defaults on an error, else each fetched field or its default. *)
Definition fetchedJson (resp : Response BoardDataJson) : BoardDataJson :=
  match error resp, data resp with
  | None, Some d =>
      {| tasks_json := json_or (tasks_json d) (JArr []);
         settings_json := json_or (settings_json d) (JObj []);
         view_json := json_or (view_json d) (JStr "default");
         custom_palettes_json := json_or (custom_palettes_json d) (JArr []) |}
  | _, _ =>
      {| tasks_json := JArr []; settings_json := JObj [];
         view_json := JStr "default"; custom_palettes_json := JArr [] |}
  end.


(** ** Completion of a call *)

Inductive Completion (A : Type) :=
  | Return (a : A)
  | Throw (what : string).
Arguments Return {A} a.
Arguments Throw {A} what.

Definition Js (A : Type) : Type := State → Completion A * State.

Definition ret {A} (a : A) : Js A := λ st, (Return a, st).

Definition bind {A B} (m : Js A) (k : A → Js B) : Js B :=
  λ st, match m st with
        | (Return a, st') => k a st'
        | (Throw e, st') => (Throw e, st')
        end.

Definition throw {A} (e : string) : Js A := λ st, (Throw e, st).

Definition read {A} (f : State → A) : Js A := λ st, (Return (f st), st).

Definition act (f : State → State) : Js unit := λ st, (Return tt, f st).

Notation "x <- m ;; k" := (bind m (λ x, k))
  (at level 100, m at next level, right associativity).
Notation "m ;;; k" := (bind m (λ _, k))
  (at level 100, right associativity).

Definition lift {A} (f : list Obj → A * list Obj) : Js A :=
  λ st, let '(a, h) := f (heap st) in (Return a, set_heap h st).

(** ** The adapter *)

Definition isCloudEnabled (st : State) : bool :=
  match supabase st with
  | Some _ => true
  | None => false
  end.

(** [name || "Untitled project"]. *)
Definition titled (name : string) : string :=
  if String.eqb name "" then "Untitled project" else name.

Definition toSummary (row : BoardsRow) : Summary.t :=
  Summary.make (row_id row) (titled (row_name row)) (row_created_at row).

(** [session] answers [supabase.auth.getSession()], [resp] the select on
    [boards]. *)
Definition ensureBoardsListLoaded
    (session : option Session) (resp : Response (list BoardsRow)) : Js unit :=
  λ st,
    if negb (isCloudEnabled st) then ret tt st else
    (act (emit AuthGetSession);;;
     match session with
     | None => ret tt
     | Some s =>
         act (emit (SelectBoards (user_id s)));;;
         match error resp with
         | Some _ => act (emit (Warn "Supabase boards list:"))
         | None =>
             act (set_projectsListCache (map toSummary (default [] (data resp))))
         end
     end) st.

(** [{ tasks: [], settings: {}, view: "default", custom_palettes: [] }]. *)
Definition newDefaultRow (h : list Obj) : BoardRow * list Obj :=
  let '(t, h1) := alloc (OArr []) h in
  let '(s, h2) := alloc (ORec []) h1 in
  let '(p, h3) := alloc (OArr []) h2 in
  ({| tasks := t; settings := s; view := VStr "default"; custom_palettes := p |},
   h3).

(** [boardDataCache[k] = row], also what [row.f = x] amounts to for the
    row object the cache holds under [k]. *)
Definition assign (k : string) (row : BoardRow) (st : State) : State :=
  set_boardDataCache (<[k := row]> (boardDataCache st)) st.

(** [row.p = x] for [row = boardDataCache[k]]. When [row] is the cache's
    own property, the cache then holds [row'], which is [row] with that
    field changed. Otherwise [row] is the object inherited under [k], and
    it gets [p] as a property of its own. *)
Definition write (k : string) (row' : BoardRow) (p : string) (x : Val)
    (st : State) : State :=
  match boardDataCache st !! k with
  | Some _ => assign k row' st
  | None =>
      set_inherited
        (<[k := <[p := x]> (default ∅ (inherited st !! k))]> (inherited st)) st
  end.

(** [{ tasks: data.tasks || [], settings: data.settings || {},
       view: data.view || "default",
       custom_palettes: data.custom_palettes || [] }],
    with the fetched [data] built in the heap as the client hands it
    over. *)
Definition fetchedRow (d : BoardDataJson) (h : list Obj) : BoardRow * list Obj :=
  let '(t0, h1) := of_json (tasks_json d) h in
  let '(s0, h2) := of_json (settings_json d) h1 in
  let '(v0, h3) := of_json (view_json d) h2 in
  let '(p0, h4) := of_json (custom_palettes_json d) h3 in
  let '(t, h5) := or_new t0 (OArr []) h4 in
  let '(s, h6) := or_new s0 (ORec []) h5 in
  let '(p, h7) := or_new p0 (OArr []) h6 in
  ({| tasks := t; settings := s; view := or_else v0 (VStr "default");
      custom_palettes := p |}, h7).

(** [resp] answers the single-row select on [board_data]. *)
Definition ensureBoardDataLoaded
    (resp : Response BoardDataJson) (projectId : option string) : Js unit :=
  λ st,
    if negb (isCloudEnabled st) || negb (given projectId) then ret tt st else
    match entry (key projectId) st with
    | Some _ => ret tt st
    | None =>
        (act (emit (SelectBoardData (key projectId)));;;
         match error resp with
         | Some e =>
             (if String.eqb (code e) "PGRST116" then ret tt
              else act (emit (Warn "Supabase board_data:")));;;
             row <- lift newDefaultRow;;
             act (assign (key projectId) row)
         | None =>
             match data resp with
             | None => throw "TypeError: data is null"
             | Some d =>
                 row <- lift (fetchedRow d);;
                 act (assign (key projectId) row)
             end
         end) st
    end.

Definition loadProjectsList (st : State) : option (list Summary.t) :=
  if negb (isCloudEnabled st) then None else Some (projectsListCache st).

Definition loadTasks (projectId : option string) (st : State) : Val :=
  if negb (isCloudEnabled st) || negb (given projectId) then VNull else
  match entry (key projectId) st with
  | Some row => tasks row
  | None => VNull
  end.

Definition loadSettings (projectId : option string) (st : State) : Val :=
  if negb (isCloudEnabled st) || negb (given projectId) then VNull else
  match entry (key projectId) st with
  | Some row => settings row
  | None => VNull
  end.

Definition loadView (projectId : option string) (st : State) : Val :=
  if negb (isCloudEnabled st) || negb (given projectId) then VNull else
  match entry (key projectId) st with
  | Some row => view row
  | None => VNull
  end.

Definition loadCustomPalettes (projectId : option string) (st : State) : Val :=
  if negb (isCloudEnabled st) || negb (given projectId) then VNull else
  match entry (key projectId) st with
  | Some row => custom_palettes row
  | None => VNull
  end.

Definition ensureBoardDataRow (k : string) (st : State) : BoardRow * State :=
  match entry k st with
  | Some row => (row, st)
  | None =>
      let '(row, h) := newDefaultRow (heap st) in
      (row, assign k row (set_heap h st))
  end.

Definition persistBoardData (projectId : option string) (st : State) : State :=
  if negb (isCloudEnabled st) || negb (given projectId) then st else
  match entry (key projectId) st with
  | None => st
  | Some row => emit (UpsertBoardData (key projectId) row) st
  end.

Definition saveTasks (projectId : option string) (x : Val) (st : State) : State :=
  if negb (isCloudEnabled st) || negb (given projectId) then st else
  let '(row, st1) := ensureBoardDataRow (key projectId) st in
  persistBoardData projectId
    (write (key projectId)
       {| tasks := x; settings := settings row; view := view row;
          custom_palettes := custom_palettes row |}
       "tasks" x st1).

Definition saveSettings (projectId : option string) (x : Val) (st : State) : State :=
  if negb (isCloudEnabled st) || negb (given projectId) then st else
  let '(row, st1) := ensureBoardDataRow (key projectId) st in
  persistBoardData projectId
    (write (key projectId)
       {| tasks := tasks row; settings := x; view := view row;
          custom_palettes := custom_palettes row |}
       "settings" x st1).

Definition saveView (projectId : option string) (x : Val) (st : State) : State :=
  if negb (isCloudEnabled st) || negb (given projectId) then st else
  let '(row, st1) := ensureBoardDataRow (key projectId) st in
  persistBoardData projectId
    (write (key projectId)
       {| tasks := tasks row; settings := settings row; view := x;
          custom_palettes := custom_palettes row |}
       "view" x st1).

Definition saveCustomPalettes (projectId : option string) (x : Val) (st : State) : State :=
  if negb (isCloudEnabled st) || negb (given projectId) then st else
  let '(row, st1) := ensureBoardDataRow (key projectId) st in
  persistBoardData projectId
    (write (key projectId)
       {| tasks := tasks row; settings := settings row; view := view row;
          custom_palettes := x |}
       "custom_palettes" x st1).

(** [session] answers [getSession()], [ins] the insert into [boards]
    (its [data] is the new row's id, a uuid the table generates, under
    which [boardDataCache[id] = row] makes an own property), [now] is
    [Date.now()]. The answer to the insert into [board_data] is not
    looked at. *)
Definition createBoard (name : string)
    (session : option Session) (ins : Response string) (now : Z) :
    Js (option string) :=
  λ st,
    if negb (isCloudEnabled st) then ret None st else
    (act (emit AuthGetSession);;;
     match session with
     | None => ret None
     | Some s =>
         act (emit (InsertBoard (user_id s) (titled name)));;;
         match error ins, data ins with
         | None, Some id =>
             act (emit (InsertBoardData id));;;
             row <- lift newDefaultRow;;
             act (assign id row);;;
             act (λ st', set_projectsListCache
                    (projectsListCache st' ++ [Summary.make id (titled name) now]) st');;;
             ret (Some id)
         | _, _ =>
             act (emit (Warn "Supabase create board:"));;;
             ret None
         end
     end) st.

(** [JSON.parse(JSON.stringify(v))] as a step of a call. *)
Definition clone (v : Val) : Js Val :=
  λ st, match JSON_clone v (heap st) with
        | Some (v', h) => (Return v', set_heap h st)
        | None => (Throw "JSON", st)
        end.

(** [JSON.parse(JSON.stringify(v || <literal o>))]. *)
Definition copyOf (v : Val) (o : Obj) : Js Val :=
  v0 <- lift (or_new v o);;
  clone v0.

(** [idx = findIndex(p => p.id === id); if (idx >= 0) list[idx].name =
    newName || list[idx].name]. *)
Fixpoint renameFirst (id newName : string) (l : list Summary.t) : list Summary.t :=
  match l with
  | [] => []
  | p :: l' =>
      if String.eqb (Summary.id p) id
      then Summary.make (Summary.id p)
             (if String.eqb newName "" then Summary.name p else newName)
             (Summary.createdAt p) :: l'
      else p :: renameFirst id newName l'
  end.

(** [fetch] answers the select [ensureBoardDataLoaded] may issue; the
    other answers are those [createBoard] takes. *)
Definition duplicateBoard (sourceId : option string) (newName : string)
    (fetch : Response BoardDataJson)
    (session : option Session) (ins : Response string) (now : Z) :
    Js (option string) :=
  λ st,
    if negb (isCloudEnabled st) then ret None st else
    (ensureBoardDataLoaded fetch sourceId;;;
     source <- read (entry (key sourceId));;
     id <- createBoard newName session ins now;;
     match id, source with
     | Some i, Some src =>
         if String.eqb i "" then ret id else
         t <- copyOf (tasks src) (OArr []);;
         s <- copyOf (settings src) (ORec []);;
         p <- copyOf (custom_palettes src) (OArr []);;
         act (assign i {| tasks := t; settings := s;
                          view := or_else (view src) (VStr "default");
                          custom_palettes := p |});;;
         act (persistBoardData (Some i));;;
         act (λ st', set_projectsListCache
                (renameFirst i newName (projectsListCache st')) st');;;
         ret id
     | _, _ => ret id
     end) st.

Definition deleteBoard (projectId : option string) : Js unit :=
  λ st,
    if negb (isCloudEnabled st) || negb (given projectId) then ret tt st else
    (act (emit (DeleteBoard (key projectId)));;;
     act (λ st', set_boardDataCache (delete (key projectId) (boardDataCache st')) st');;;
     act (λ st', set_projectsListCache
            (filter (λ p, Summary.id p ≠ key projectId) (projectsListCache st')) st')) st.


(** The listener [init] hands to [supabase.auth.onAuthStateChange].
    [session] comes with the event; [current] and [resp] answer the
    [getSession()] and the select of [ensureBoardsListLoaded]. *)
Definition onAuthStateChange (event : string) (session : option Session)
    (current : option Session) (resp : Response (list BoardsRow)) : Js unit :=
  (if String.eqb event "INITIAL_SESSION" || String.eqb event "SIGNED_IN"
      || String.eqb event "TOKEN_REFRESHED"
   then match session with
        | Some _ => ensureBoardsListLoaded current resp
        | None => ret tt
        end
   else if String.eqb event "SIGNED_OUT"
   then act (set_projectsListCache []);;; act (set_boardDataCache ∅)
   else ret tt);;;
  act (notify session).

(** ** The four document fields, for statements about all of them *)

Inductive Field := Tasks | Settings | View | CustomPalettes.

Definition load (f : Field) : option string → State → Val :=
  match f with
  | Tasks => loadTasks
  | Settings => loadSettings
  | View => loadView
  | CustomPalettes => loadCustomPalettes
  end.

Definition save (f : Field) : option string → Val → State → State :=
  match f with
  | Tasks => saveTasks
  | Settings => saveSettings
  | View => saveView
  | CustomPalettes => saveCustomPalettes
  end.

Definition field (f : Field) : BoardRow → Val :=
  match f with
  | Tasks => tasks
  | Settings => settings
  | View => view
  | CustomPalettes => custom_palettes
  end.


(** The fields of [row], as they serialise in [h], are those of [doc]. *)
Definition reads_as (h : list Obj) (row : BoardRow) (doc : BoardDataJson) : Prop :=
  JSON_stringify h (tasks row) = Some (Some (tasks_json doc))
  ∧ JSON_stringify h (settings row) = Some (Some (settings_json doc))
  ∧ JSON_stringify h (view row) = Some (Some (view_json doc))
  ∧ JSON_stringify h (custom_palettes row) = Some (Some (custom_palettes_json doc)).





(** A run of setter calls, first call first. *)
Definition saves (ws : list (Field * option string * Val)) (st : State) : State :=
  foldl (λ st' w, save w.1.1 w.1.2 w.2 st') st ws.

(** ** Sample states and answers *)

(** The module as it is loaded, before [init] found a configuration. *)
Definition offline : State :=
  {| supabase := None; projectsListCache := []; boardDataCache := ∅;
     authCallback := None; heap := []; log := []; inherited := ∅ |}.

(** After [init] built a client and the UI registered its callback. *)
Definition online : State :=
  {| supabase := Some {| url := "https://gaant.supabase.co"; anonKey := "anon" |};
     projectsListCache := []; boardDataCache := ∅;
     authCallback := Some 0; heap := []; log := []; inherited := ∅ |}.

Definition ok {A} (a : A) : Response A := {| data := Some a; error := None |}.

Definition failed {A} (c : string) : Response A :=
  {| data := None; error := Some {| code := c; message := "" |} |}.

Definition alice : Session := {| user_id := "alice" |}.
Definition bob : Session := {| user_id := "bob" |}.

(** A board of Alice's, and the module with her list loaded. *)
Definition aliceBoard : Summary.t := Summary.make "b1" "Launch Plan" 1000.

Definition withAliceList : State := set_projectsListCache [aliceBoard] online.


(** A [board_data] row whose [tasks] column holds a JSON string. *)
Definition oddRow : BoardDataJson :=
  {| tasks_json := JStr "oops"; settings_json := JNull; view_json := JNull;
     custom_palettes_json := JNull |}.

(** The module with [[{ task: "A" }]] saved as the tasks of board "X". *)
Definition withTasksA : State :=
  let '(v, h) := of_json (JArr [JObj [("task", JStr "A")]]) (heap online) in
  saveTasks (Some "X") v (set_heap h online).

(** [[{ task: "A" }]]. *)
Definition tasksA : Json := JArr [JObj [("task", JStr "A")]].

(** The number of single-row selects on [board_data] a log holds. *)
Definition is_fetch (e : Effect) : bool :=
  match e with
  | SelectBoardData _ => true
  | _ => false
  end.

Definition fetches (l : list Effect) : nat :=
  length (List.filter is_fetch l).

(** ** The session accessors *)

Definition set_authCallback (cb : option Callback) (st : State) : State :=
  {| supabase := supabase st; projectsListCache := projectsListCache st;
     boardDataCache := boardDataCache st; authCallback := cb;
     heap := heap st; log := log st; inherited := inherited st |}.



(** [cb] is a function or nothing. The [then] of the [getSession()] it
    starts runs when the answer [current] is in, and calls [cb] itself,
    not whatever is registered by then. *)
Definition onAuthChange (cb : option Callback) (current : option Session) : Js unit :=
  act (set_authCallback cb);;;
  (λ st,
     match supabase st, cb with
     | Some _, Some f =>
         (act (emit AuthGetSession);;;
          act (λ st', emit (Notify f current (projectsListCache st')
                              (boardDataCache st')) st')) st
     | _, _ => ret tt st
     end).

(** The sessions the callback [cb] was called with, oldest first. *)
Definition notified (cb : Callback) (l : list Effect) : list (option Session) :=
  omap (λ e, match e with
             | Notify cb' session _ _ => if Nat.eqb cb' cb then Some session else None
             | _ => None
             end) l.

(** ** The page around the adapter

    What the remaining functions touch besides the closure variables
    above: the closure variable [initConfig], the calls to the client
    library that the log above has no entry for, whether the library is
    loaded ([typeof window.supabase !== "undefined"]), and
    [localStorage] (absent when [typeof localStorage === "undefined"]).
    Text is ASCII: project URLs and keys. *)

Inductive Call :=
  | CreateClient (url anonKey : string)
  | OnAuthStateChange
  | SignInWithPassword (email password : string)
  | SignUp (email password : string)
  | UpdateBoardName (board_id name : string).

(** A [localStorage] value: a text that [JSON.parse] rejects, or the text
    of a tree. *)
Inductive Stored :=
  | NotJson
  | Text (j : Json).

Record Page := {
  adapter : State;
  initConfig : option Client;
  sent : list Call;
  library : bool;
  localStorage : option (gmap string Stored) }.

Definition on (f : State → State) (pg : Page) : Page :=
  {| adapter := f (adapter pg); initConfig := initConfig pg; sent := sent pg;
     library := library pg; localStorage := localStorage pg |}.

Definition send (c : Call) (pg : Page) : Page :=
  {| adapter := adapter pg; initConfig := initConfig pg; sent := sent pg ++ [c];
     library := library pg; localStorage := localStorage pg |}.

Definition set_initConfig (c : option Client) (pg : Page) : Page :=
  {| adapter := adapter pg; initConfig := c; sent := sent pg;
     library := library pg; localStorage := localStorage pg |}.


Definition set_supabase (c : option Client) (st : State) : State :=
  {| supabase := c; projectsListCache := projectsListCache st;
     boardDataCache := boardDataCache st; authCallback := authCallback st;
     heap := heap st; log := log st; inherited := inherited st |}.

(** A call of the adapter proper, run on the page. *)
Definition run {A} (m : Js A) (pg : Page) : Completion A * Page :=
  let '(r, st) := m (adapter pg) in
  (r, {| adapter := st; initConfig := initConfig pg; sent := sent pg;
         library := library pg; localStorage := localStorage pg |}).

(** *** The project list setter *)

(** [list] is an array of entries, or something [Array.isArray] rejects.
    [answers] are the errors of the answers to the updates, in the order
    of the entries (an update with no answer yet has no error). *)
Definition saveProjectsList (list : option (list Summary.t))
    (answers : Datatypes.list (option PgError)) (pg : Page) : Page :=
  match supabase (adapter pg), list with
  | Some _, Some l =>
      let pg1 := on (set_projectsListCache l) pg in
      let pg2 :=
        foldl (λ pg' item,
                 send (UpdateBoardName (Summary.id item) (titled (Summary.name item)))
                   pg') pg1 l in
      foldl (λ pg' a,
               match a with
               | Some _ => on (emit (Warn "Supabase update board name:")) pg'
               | None => pg'
               end) pg2 (take (length l) answers)
  | _, _ => pg
  end.

(** *** Signing in and up *)

(** What [signInWithPassword] and [signUp] resolve to: [data.session] and
    the message of [error]. *)
Record AuthAnswer := {
  answer_session : option Session;
  answer_error : option string }.

(** [{ error }] with the error's message, or [{ session }]. *)
Inductive SignResult :=
  | SignFailed (message : string)
  | SignedIn (session : option Session).

(** [try { await ensureBoardsListLoaded(); } catch (e) { console.warn(...) }]. *)
Definition tryLoadList (current : option Session)
    (resp : Response (list BoardsRow)) (pg : Page) : Page :=
  match run (ensureBoardsListLoaded current resp) pg with
  | (Return _, pg') => pg'
  | (Throw _, pg') => on (emit (Warn "Boards list load failed:")) pg'
  end.

(** [attempt] is how [supabase.auth.signInWithPassword] ends; [current]
    and [resp] are the answers [ensureBoardsListLoaded] takes. *)
Definition signIn (email password : string) (attempt : Completion AuthAnswer)
    (current : option Session) (resp : Response (list BoardsRow))
    (pg : Page) : SignResult * Page :=
  if negb (isCloudEnabled (adapter pg))
  then (SignFailed "Supabase not configured", pg)
  else
    let pg1 := send (SignInWithPassword email password) pg in
    match attempt with
    | Throw what => (SignFailed what, on (emit (Warn "[Supabase auth]")) pg1)
    | Return a =>
        match answer_error a with
        | Some e => (SignFailed e, on (emit (Warn "[Supabase auth]")) pg1)
        | None =>
            let pg2 := tryLoadList current resp pg1 in
            (SignedIn (answer_session a), on (notify (answer_session a)) pg2)
        end
    end.

Definition signUp (email password : string) (attempt : Completion AuthAnswer)
    (current : option Session) (resp : Response (list BoardsRow))
    (pg : Page) : Completion SignResult * Page :=
  if negb (isCloudEnabled (adapter pg))
  then (Return (SignFailed "Supabase not configured"), pg)
  else
    let pg1 := send (SignUp email password) pg in
    match attempt with
    | Throw what => (Throw what, pg1)
    | Return a =>
        match answer_error a with
        | Some e => (Return (SignFailed e), pg1)
        | None =>
            match answer_session a with
            | Some s =>
                let pg2 := tryLoadList current resp pg1 in
                (Return (SignedIn (Some s)), on (notify (Some s)) pg2)
            | None => (Return (SignedIn None), pg1)
            end
        end
    end.

(** *** Text *)

(** The white space [trim] removes, within ASCII: tab, line feed,
    vertical tab, form feed, carriage return, space. *)
Definition is_space (c : Ascii.ascii) : bool :=
  let n := Ascii.nat_of_ascii c in
  (9 <=? n) && (n <=? 13) || (n =? 32).

Fixpoint trimStart (s : string) : string :=
  match s with
  | String c s' => if is_space c then trimStart s' else s
  | EmptyString => EmptyString
  end.

Fixpoint trimEnd (s : string) : string :=
  match s with
  | EmptyString => EmptyString
  | String c s' =>
      match trimEnd s' with
      | EmptyString => if is_space c then EmptyString else String c EmptyString
      | t => String c t
      end
  end.

Definition trim (s : string) : string := trimEnd (trimStart s).

(** [s.includes(sub)]. *)
Fixpoint includes (s sub : string) : bool :=
  String.prefix sub s
  || match s with
     | EmptyString => false
     | String _ s' => includes s' sub
     end.

(** The letter in lower case; other characters as they are. *)
Definition lower (c : Ascii.ascii) : Ascii.ascii :=
  let n := Ascii.nat_of_ascii c in
  if (65 <=? n) && (n <=? 90) then Ascii.ascii_of_nat (n + 32) else c.

(** [s] starts with [p], letters compared without case: what is left of
    [s]. *)
Fixpoint after_prefix (p s : string) : option string :=
  match p, s with
  | EmptyString, _ => Some s
  | String a p', String b s' =>
      if Ascii.eqb (lower a) (lower b) then after_prefix p' s' else None
  | String _ _, EmptyString => None
  end.

(** The longest start of [s] made of characters [P] accepts, and the rest. *)
Fixpoint span (P : Ascii.ascii → bool) (s : string) : string * string :=
  match s with
  | EmptyString => (EmptyString, EmptyString)
  | String c s' =>
      if P c then let '(a, b) := span P s' in (String c a, b)
      else (EmptyString, s)
  end.

(** [[a-z0-9]] under the [i] flag. *)
Definition is_alnum (c : Ascii.ascii) : bool :=
  let n := Ascii.nat_of_ascii (lower c) in
  (97 <=? n) && (n <=? 122) || (48 <=? n) && (n <=? 57).

(** [/\/project\/([a-z0-9]+)/i.exec(url)]: the group of the leftmost
    match, if there is a match. *)
Fixpoint projectRef (url : string) : option string :=
  let here :=
    match after_prefix "/project/" url with
    | Some rest =>
        let ref := (span is_alnum rest).1 in
        if String.eqb ref "" then None else Some ref
    | None => None
    end in
  match here, url with
  | Some ref, _ => Some ref
  | None, String _ url' => projectRef url'
  | None, EmptyString => None
  end.

(** [[^.]]: any character but the dot (code 46). *)
Definition not_dot (c : Ascii.ascii) : bool :=
  negb (Ascii.nat_of_ascii c =? 46).

(** [/^https:\/\/[^.]+\.supabase\.co\/?$/i.test(url)]: after the
    scheme, the characters up to the first dot are the [[^.]+], and what
    follows them has to be the rest of the pattern. *)
Definition isProjectUrl (url : string) : bool :=
  match after_prefix "https://" url with
  | None => false
  | Some rest =>
      let '(host, tail) := span not_dot rest in
      negb (String.eqb host "")
      && (match after_prefix ".supabase.co" tail with
          | Some "" | Some "/" => true
          | _ => false
          end)
  end.

(** Every character of [s] is one [P] accepts. *)
Fixpoint every (P : Ascii.ascii → bool) (s : string) : bool :=
  match s with
  | EmptyString => true
  | String c s' => P c && every P s'
  end.

(** *** Applying a configuration *)

(** [config] is an object with the two fields (an empty string stands for
    a field that is missing or falsy), or nothing. [created] is how
    [createClient] ends, [current] answers the [getSession()] whose
    [then] calls the callback. *)
Definition init (config : option Client) (created : Completion unit)
    (current : option Session) (pg : Page) : Completion unit * Page :=
  match config with
  | None => (Return tt, pg)
  | Some c =>
      if String.eqb (url c) "" || String.eqb (anonKey c) "" then (Return tt, pg)
      else if includes (url c) "YOUR_PROJECT" || includes (anonKey c) "YOUR_ANON"
      then (Return tt, pg)
      else
        let u := trim (url c) in
        let k := trim (anonKey c) in
        if match initConfig pg, supabase (adapter pg) with
           | Some ic, Some _ => String.eqb (url ic) u && String.eqb (anonKey ic) k
           | _, _ => false
           end
        then (Return tt, pg)
        else
          let pg1 := set_initConfig (Some {| url := u; anonKey := k |}) pg in
          if library pg1 then
            let pg2 := send (CreateClient u k) pg1 in
            match created with
            | Throw what => (Throw what, pg2)
            | Return _ =>
                let pg3 := on (set_supabase (Some {| url := u; anonKey := k |})) pg2 in
                let pg4 := send OnAuthStateChange pg3 in
                (Return tt, on (notify current) (on (emit AuthGetSession) pg4))
            end
          else (Return tt, pg1)
  end.

(** *** Saving a configuration *)











(** A page that has loaded the library and has a storage, before [init]. *)
Definition blankPage : Page :=
  {| adapter := offline; initConfig := None; sent := []; library := true;
     localStorage := Some ∅ |}.

(** The page with the adapter configured and Alice's list loaded. *)
Definition alicePage : Page :=
  {| adapter := withAliceList;
     initConfig := Some {| url := "https://gaant.supabase.co"; anonKey := "anon" |};
     sent := []; library := true; localStorage := Some ∅ |}.

(** ** Sample data for the properties below *)

(** A cell that holds itself: [a = []; a.push(a)]. *)
Definition withCycle : State :=
  saveTasks (Some "X") (VRef 0) (set_heap [OArr [VRef 0]] online).

(** The document a new board starts with, as JSON. *)
Definition defaultDocument : BoardDataJson :=
  {| tasks_json := JArr []; settings_json := JObj [];
     view_json := JStr "default"; custom_palettes_json := JArr [] |}.

(** Unfolds the steps of a call. *)
Ltac js_unfold :=
  unfold bind, ret, act, read, throw, lift in *; simpl in *.

(** * Properties *)

(** ** The heap and JSON *)

Lemma Json_induction (P : Json → Prop) :
  P JNull → (∀ b, P (JBool b)) → (∀ n, P (JNum n)) → (∀ s, P (JStr s)) →
  (∀ items, Forall P items → P (JArr items)) →
  (∀ members, Forall (λ m, P m.2) members → P (JObj members)) →
  ∀ j, P j.
Proof.
  intros Hnull Hbool Hnum Hstr Harr Hobj.
  fix IH 1. intros [ | b | n | s | items | members].
  - exact Hnull.
  - apply Hbool.
  - apply Hnum.
  - apply Hstr.
  - apply Harr.
    exact ((fix all (l : list Json) : Forall P l :=
              match l with
              | [] => Forall_nil_2 P
              | j :: l' => Forall_cons_2 P j l' (IH j) (all l')
              end) items).
  - apply Hobj.
    exact ((fix all (l : list (string * Json)) : Forall (λ m, P m.2) l :=
              match l with
              | [] => Forall_nil_2 _
              | (k, j) :: l' => Forall_cons_2 (λ m, P m.2) (k, j) l' (IH j) (all l')
              end) members).
Qed.

Lemma keeps_refl (h : list Obj) : keeps h h.
Proof. by intros l o. Qed.

Lemma keeps_trans (h1 h2 h3 : list Obj) : keeps h1 h2 → keeps h2 h3 → keeps h1 h3.
Proof. intros H12 H23 l o Hl. eauto. Qed.

Lemma prefix_keeps (h h2 : list Obj) : h `prefix_of` h2 → keeps h h2.
Proof. intros Hp l o Hl. by eapply prefix_lookup_Some. Qed.

Lemma keeps_app (h ext : list Obj) : keeps h (h ++ ext).
Proof. apply prefix_keeps, prefix_app_r. done. Qed.

Lemma keeps_length (h h2 : list Obj) : keeps h h2 → length h ≤ length h2.
Proof.
  intros Hk. destruct (decide (length h = 0)) as [->|Hne]; [lia|].
  destruct (lookup_lt_is_Some_2 h (length h - 1)) as [o Ho]; [lia|].
  apply Hk, lookup_lt_Some in Ho. lia.
Qed.


(** Serialising reads the cells it reaches and nothing else: more fuel
    and a heap that keeps those of [h] give the same tree. *)
Lemma serialize_mono (n : nat) :
  ∀ m h h2 v r,
    serialize n h v = Some r → n ≤ m → keeps h h2 → serialize m h2 v = Some r.
Proof.
  induction n as [|n IH]; intros m h h2 v r Hs Hle Hk; [done|].
  destruct m as [|m]; [lia|]. simpl in *.
  destruct v as [ | | | | |l]; try done.
  destruct (h !! l) as [[vs|ps]|] eqn:El; [| |done]; rewrite (Hk _ _ El).
  - destruct (mapM _ vs) as [js|] eqn:Em; simpl in Hs; [|done].
    assert (mapM (λ v', default JNull <$> serialize m h2 v') vs = Some js) as ->; [|done].
    apply mapM_Some. apply mapM_Some in Em.
    eapply Forall2_impl; [exact Em|]. intros v' j Hv. simpl in *.
    destruct (serialize n h v') as [r'|] eqn:E; [|done].
    rewrite (IH m h h2 v' r' E); [done | lia | done].
  - destruct (mapM _ ps) as [ms|] eqn:Em; simpl in Hs; [|done].
    assert (mapM (λ p, (λ r, (p.1, r)) <$> serialize m h2 p.2) ps = Some ms) as ->; [|done].
    apply mapM_Some. apply mapM_Some in Em.
    eapply Forall2_impl; [exact Em|]. intros p q Hv. simpl in *.
    destruct (serialize n h p.2) as [r'|] eqn:E; [|done].
    rewrite (IH m h h2 p.2 r' E); [done | lia | done].
Qed.

(** *** The fuel [JSON_stringify] runs on is enough *)

Lemma mapM_agree {A B : Type} (f g : A → option B) (l : list A) (k : list B) :
  (∀ x y, x ∈ l → f x = Some y → g x = Some y) →
  mapM f l = Some k → mapM g l = Some k.
Proof.
  intros Hfg Hm. apply mapM_Some in Hm. apply mapM_Some.
  induction Hm as [|x y l k Hxy _ IH]; constructor.
  - apply Hfg; [left | done].
  - apply IH. intros x' y' Hx'. apply Hfg. by right.
Qed.

Lemma serialize_child (n : nat) (h : list Obj) (l : loc) (o : Obj) (v : Val)
    (r : option Json) :
  serialize (S n) h (VRef l) = Some r → h !! l = Some o → v ∈ children o →
  ∃ r', serialize n h v = Some r'.
Proof.
  simpl. intros Hs Hl Hv. rewrite Hl in Hs. destruct o as [vs|ps]; simpl in Hv.
  - destruct (mapM _ vs) as [js|] eqn:Em; [|done]. apply mapM_Some in Em.
    apply list_elem_of_lookup in Hv as [i Hi].
    destruct (Forall2_lookup_l _ _ _ _ _ Em Hi) as (j & _ & Hj).
    destruct (serialize n h v); [eauto | done].
  - destruct (mapM _ ps) as [ms|] eqn:Em; [|done]. apply mapM_Some in Em.
    apply list_elem_of_fmap in Hv as (q & -> & Hq).
    apply list_elem_of_lookup in Hq as [i Hi].
    destruct (Forall2_lookup_l _ _ _ _ _ Em Hi) as (m & _ & Hm).
    destruct (serialize n h q.2); [eauto | done].
Qed.

(** Fuel beyond the length of every way down is enough. *)
Lemma serialize_enough (n : nat) (h : list Obj) :
  ∀ v r m, serialize n h v = Some r →
    (∀ p, chain h v p → length p < m) → serialize m h v = Some r.
Proof.
  induction n as [|n IH]; intros v r m Hs Hp; [done|].
  destruct m as [|m]; [specialize (Hp [] (chain_nil _ _)); simpl in Hp; lia|].
  simpl in *. destruct v as [ | | | | |l]; try done.
  destruct (h !! l) as [[vs|ps]|] eqn:El; [| |done].
  - destruct (mapM _ vs) as [js|] eqn:Em; simpl in Hs; [|done].
    rewrite (mapM_agree (λ v', default JNull <$> serialize n h v')
               (λ v', default JNull <$> serialize m h v') vs js);
      [done | | done].
    intros v' j Hv Hj. destruct (serialize n h v') as [r'|] eqn:E; [|done].
    rewrite (IH v' r' m E); [done|]. intros p Hc.
    specialize (Hp (l :: p) (chain_cons h l (OArr vs) v' p El Hv Hc)).
    simpl in Hp. lia.
  - destruct (mapM _ ps) as [ms|] eqn:Em; simpl in Hs; [|done].
    rewrite (mapM_agree (λ q, (λ r, (q.1, r)) <$> serialize n h q.2)
               (λ q, (λ r, (q.1, r)) <$> serialize m h q.2) ps ms);
      [done | | done].
    intros q k Hq Hk. destruct (serialize n h q.2) as [r'|] eqn:E; [|done].
    rewrite (IH q.2 r' m E); [done|]. intros p Hc.
    assert (q.2 ∈ children (ORec ps)) as Hv.
    { simpl. apply list_elem_of_fmap. eauto. }
    specialize (Hp (l :: p) (chain_cons h l (ORec ps) q.2 p El Hv Hc)).
    simpl in Hp. lia.
Qed.

(** A run that succeeds has run, on less fuel, on every cell down any way. *)
Lemma serialize_along (p : list loc) :
  ∀ n h v r, serialize n h v = Some r → chain h v p →
    ∀ i l, p !! i = Some l →
      i < n ∧ ∃ r', serialize (n - i) h (VRef l) = Some r'.
Proof.
  induction p as [|l0 p IH]; intros n h v r Hs Hc i l Hi; [done|].
  inversion Hc as [|? o v' ? Hl Hv Hc']; subst.
  destruct n as [|n]; [done|].
  destruct i as [|i]; simpl in Hi.
  - simplify_eq. split; [lia|]. eauto.
  - destruct (serialize_child _ _ _ _ _ _ Hs Hl Hv) as [r1 Hr1].
    destruct (IH _ _ _ _ Hr1 Hc' i l Hi) as [Hlt Hr']. split; [lia | done].
Qed.

(** So no way down from a cell that serialises comes back to it. *)
Lemma serialize_no_cycle (n : nat) :
  ∀ h l r p, serialize n h (VRef l) = Some r → chain h (VRef l) (l :: p) → l ∉ p.
Proof.
  induction n as [n IH] using lt_wf_ind. intros h l r p Hs Hc Hin.
  apply list_elem_of_lookup in Hin as [i Hi].
  destruct (serialize_along _ _ _ _ _ Hs Hc (S i) l Hi) as [Hlt [r' Hr']].
  eapply (IH (n - S i)); [lia | exact Hr' | exact Hc |].
  apply list_elem_of_lookup. eauto.
Qed.

Lemma chain_NoDup (p : list loc) :
  ∀ n h v r, serialize n h v = Some r → chain h v p → NoDup p.
Proof.
  induction p as [|l p IH]; intros n h v r Hs Hc; [constructor|].
  inversion Hc as [|? o v' ? Hl Hv Hc']; subst. constructor.
  - by eapply serialize_no_cycle.
  - destruct n as [|n]; [done|].
    destruct (serialize_child _ _ _ _ _ _ Hs Hl Hv) as [r1 Hr1]. by eapply IH.
Qed.

Lemma chain_bound (h : list Obj) (v : Val) (p : list loc) :
  chain h v p → ∀ l, l ∈ p → l < length h.
Proof.
  induction 1 as [|l o v p Hl _ _ IH]; intros l' Hin; [by inversion Hin|].
  apply elem_of_cons in Hin as [->|Hin]; [by eapply lookup_lt_Some | auto].
Qed.

(** What serialises on some fuel serialises on the fuel [JSON_stringify]
    runs on: it fails only where no fuel would do. *)
Lemma stringify_enough_fuel (n : nat) (h : list Obj) (v : Val) (r : option Json) :
  serialize n h v = Some r → JSON_stringify h v = Some r.
Proof.
  intros Hs. unfold JSON_stringify. eapply serialize_enough; [exact Hs|].
  intros p Hc.
  assert (length p ≤ length (seq 0 (length h))) as Hlen.
  { apply submseteq_length, NoDup_submseteq; [by eapply chain_NoDup|].
    intros l Hl. apply elem_of_seq. split; [lia|]. simpl. by eapply chain_bound. }
  rewrite length_seq in Hlen. lia.
Qed.

(** A cell that holds itself, directly or further down, does not
    serialise. *)
Lemma stringify_cycle (h : list Obj) (l : loc) (p : list loc) :
  chain h (VRef l) (l :: p) → l ∈ p → JSON_stringify h (VRef l) = None.
Proof.
  intros Hc Hin. destruct (JSON_stringify h (VRef l)) as [r|] eqn:E; [|done].
  by destruct (serialize_no_cycle _ _ _ _ _ E Hc).
Qed.

(** *** Copies *)

Lemma copied_widen (j : Json) (h0 h : list Obj) (v : Val) (h' h0' : list Obj) :
  h0 `prefix_of` h → h `prefix_of` h' → h' `prefix_of` h0' →
  copied j h v h' → copied j h0 v h0'.
Proof.
  intros H0 H1 H2 (Hh & Hs & Hr).
  apply prefix_length in H0 as L0. apply prefix_length in H1 as L1.
  apply prefix_length in H2 as L2.
  split; [lia|]. split.
  - intros n h2 Hn Hk. apply Hs; [done|].
    eapply keeps_trans; [by apply prefix_keeps | done].
  - intros h2 l Hk Hreach.
    assert (length h ≤ l < length h'); [|lia].
    eapply Hr; [|done]. eapply keeps_trans; [by apply prefix_keeps | done].
Qed.

(** [mapS] grows the heap, and what holds of each element between the
    heaps it ran in holds of it between the first and the last. *)
Lemma mapS_spec {A B : Type} (f : A → list Obj → B * list Obj)
    (G : A → list Obj → B → list Obj → Prop) :
  (∀ x h0 h y h' h0', h0 `prefix_of` h → h `prefix_of` h' → h' `prefix_of` h0' →
     G x h y h' → G x h0 y h0') →
  ∀ xs, Forall (λ x, ∀ h y h', f x h = (y, h') → h `prefix_of` h' ∧ G x h y h') xs →
  ∀ h ys h', mapS f xs h = (ys, h') →
    h `prefix_of` h' ∧ Forall2 (λ x y, G x h y h') xs ys.
Proof.
  intros Hw xs Hall.
  induction Hall as [|x xs Hx _ IH]; intros h ys h' Hm; simpl in Hm.
  - simplify_eq. split; [done | constructor].
  - destruct (f x h) as [y h1] eqn:Ef.
    destruct (mapS f xs h1) as [ys' h2] eqn:Em. simplify_eq.
    destruct (Hx _ _ _ Ef) as [Hp1 Hg]. destruct (IH _ _ _ Em) as [Hp2 Hall2].
    split; [by etrans|]. constructor.
    + by apply (Hw x h h y h1 h').
    + eapply Forall2_impl; [exact Hall2|]. intros x' y' Hg'.
      by apply (Hw x' h h1 y' h' h').
Qed.

Lemma of_json_arr (items : list Json) (h : list Obj) :
  of_json (JArr items) h =
    let '(vs, h1) := mapS of_json items h in alloc (OArr vs) h1.
Proof. reflexivity. Qed.

Lemma of_json_obj (members : list (string * Json)) (h : list Obj) :
  of_json (JObj members) h =
    let '(ps, h1) :=
      mapS (λ m h0, match m with
                    | (k, j') => let '(v, h') := of_json j' h0 in ((k, v), h')
                    end) members h in
    alloc (ORec ps) h1.
Proof. reflexivity. Qed.

Lemma serialize_items (n : nat) (h h1 h2 : list Obj) (items : list Json) (vs : list Val) :
  Forall2 (λ j v, copied j h v h1) items vs →
  foldr (λ j' m, Nat.max (height j') m) 0 items ≤ n → keeps h1 h2 →
  mapM (λ v', default JNull <$> serialize n h2 v') vs = Some items.
Proof.
  intros Hall Hn Hk. induction Hall as [|j v items vs (_ & Hs & _) _ IH]; [done|].
  simpl in *. rewrite Hs by (done || lia). simpl. rewrite IH by lia. done.
Qed.

Lemma serialize_members (n : nat) (h h1 h2 : list Obj)
    (members : list (string * Json)) (ps : list (string * Val)) :
  Forall2 (λ m p, p.1 = m.1 ∧ copied m.2 h p.2 h1) members ps →
  foldr (λ m k, Nat.max (height m.2) k) 0 members ≤ n → keeps h1 h2 →
  mapM (λ p, (λ r, (p.1, r)) <$> serialize n h2 p.2) ps
    = Some ((λ m, (m.1, Some m.2)) <$> members).
Proof.
  intros Hall Hn Hk.
  induction Hall as [|m p members ps (Hkey & _ & Hs & _) _ IH]; [done|].
  simpl in *. rewrite Hs by (done || lia). simpl. rewrite IH by lia.
  simpl. by rewrite Hkey.
Qed.

Lemma omap_members (members : list (string * Json)) :
  omap (λ m : string * option Json, (λ j, (m.1, j)) <$> m.2)
    ((λ m : string * Json, (m.1, Some m.2)) <$> members) = members.
Proof.
  induction members as [|[k j] members IH]; [done|]. simpl. f_equal. exact IH.
Qed.

(** [JSON.parse] grows the heap and hands back a copy that owns its
    cells. *)
Lemma of_json_copied (j : Json) :
  ∀ h v h', of_json j h = (v, h') → h `prefix_of` h' ∧ copied j h v h'.
Proof.
  induction j as [ | b | z | s | items IH | members IH] using Json_induction;
    intros h v h' Hj.
  1-4: simpl in Hj; simplify_eq; (split; [done|]); (split; [simpl; lia|]);
       (split; [by intros [|n] h2 Hn Hk; [simpl in Hn; lia|] | ]);
       intros h2 l _ Hr; inversion Hr.
  - rewrite of_json_arr in Hj.
    destruct (mapS of_json items h) as [vs h1] eqn:Em.
    unfold alloc in Hj. simplify_eq.
    destruct (mapS_spec of_json copied copied_widen items IH _ _ _ Em)
      as [Hp Hall].
    apply prefix_length in Hp as Hlen.
    split; [etrans; [exact Hp | by apply prefix_app_r]|].
    assert (foldr (λ j' m, Nat.max (height j') m) 0 items
              ≤ S (length h1 - length h)) as Hmax.
    { clear -Hall. induction Hall as [|j v items vs (Hh & _) _ IHa];
        simpl; [lia|]. lia. }
    split; [simpl; rewrite length_app; simpl; lia|]. split.
    + intros [|n] h2 Hn Hk; simpl in Hn; [lia|]. simpl.
      rewrite (Hk (length h1) (OArr vs) (list_lookup_middle _ _ _ _ eq_refl)).
      rewrite (serialize_items n h h1 h2 items vs); [done | done | lia |].
      eapply keeps_trans; [apply keeps_app | exact Hk].
    + intros h2 l Hk Hr. rewrite length_app. simpl.
      pose proof (Hk (length h1) (OArr vs) (list_lookup_middle _ _ _ _ eq_refl))
        as Hcell.
      inversion Hr as [ | ? vs0 v l' Hl Hv Hr' | ? ps k v l' Hl _ _]; subst;
        [lia | | congruence].
      assert (vs0 = vs) as -> by congruence.
      apply list_elem_of_lookup in Hv as [i Hi].
      destruct (Forall2_lookup_r _ _ _ _ _ Hall Hi) as (j & _ & _ & _ & Hfresh).
      assert (length h ≤ l < length h1); [|lia].
      eapply Hfresh; [|exact Hr'].
      eapply keeps_trans; [apply keeps_app | exact Hk].
  - rewrite of_json_obj in Hj.
    set (f := λ (m : string * Json) (h0 : list Obj),
                match m with
                | (k, j') => let '(v, h') := of_json j' h0 in ((k, v), h')
                end) in Hj.
    set (G := λ (m : string * Json) (h0 : list Obj) (p : string * Val)
                (h1 : list Obj), p.1 = m.1 ∧ copied m.2 h0 p.2 h1).
    destruct (mapS f members h) as [ps h1] eqn:Em.
    unfold alloc in Hj. simplify_eq.
    assert (Forall (λ m, ∀ h y h', f m h = (y, h') → h `prefix_of` h' ∧ G m h y h')
              members) as Hf.
    { eapply Forall_impl; [exact IH|]. intros [k j] Hm h0 y h0' Hy.
      unfold f in Hy. destruct (of_json j h0) as [v0 h1'] eqn:Ej.
      simplify_eq. destruct (Hm _ _ _ Ej). by split. }
    assert (∀ x h0 h y h' h0', h0 `prefix_of` h → h `prefix_of` h' →
              h' `prefix_of` h0' → G x h y h' → G x h0 y h0') as Hw.
    { intros x h0 h2 y h2' h0' H0 H1 H2 [Hkey Hc]. split; [done|].
      by eapply copied_widen. }
    destruct (mapS_spec f G Hw members Hf _ _ _ Em) as [Hp Hall].
    apply prefix_length in Hp as Hlen.
    split; [etrans; [exact Hp | by apply prefix_app_r]|].
    assert (foldr (λ m k, Nat.max (height m.2) k) 0 members
              ≤ S (length h1 - length h)) as Hmax.
    { clear -Hall. induction Hall as [|m p members ps (_ & Hh & _) _ IHa];
        simpl; [lia|]. lia. }
    split; [simpl; rewrite length_app; simpl; lia|]. split.
    + intros [|n] h2 Hn Hk; simpl in Hn; [lia|]. simpl.
      rewrite (Hk (length h1) (ORec ps) (list_lookup_middle _ _ _ _ eq_refl)).
      rewrite (serialize_members n h h1 h2 members ps); [| done | lia |].
      * simpl. by rewrite omap_members.
      * eapply keeps_trans; [apply keeps_app | exact Hk].
    + intros h2 l Hk Hr. rewrite length_app. simpl.
      pose proof (Hk (length h1) (ORec ps) (list_lookup_middle _ _ _ _ eq_refl))
        as Hcell.
      inversion Hr as [ | ? vs0 v l' Hl _ _ | ? ps0 k v l' Hl Hv Hr']; subst;
        [lia | congruence | ].
      assert (ps0 = ps) as -> by congruence.
      apply list_elem_of_lookup in Hv as [i Hi].
      destruct (Forall2_lookup_r _ _ _ _ _ Hall Hi) as (m & _ & _ & _ & _ & Hfresh).
      assert (length h ≤ l < length h1); [|lia].
      eapply Hfresh; [|exact Hr'].
      eapply keeps_trans; [apply keeps_app | exact Hk].
Qed.

Lemma JSON_stringify_keeps (h h2 : list Obj) (v : Val) (r : option Json) :
  JSON_stringify h v = Some r → keeps h h2 → JSON_stringify h2 v = Some r.
Proof.
  unfold JSON_stringify. intros Hs Hk.
  eapply serialize_mono; [exact Hs | | exact Hk].
  apply keeps_length in Hk. lia.
Qed.

Lemma of_json_truthy (j : Json) (h : list Obj) :
  truthy (of_json j h).1 = json_truthy j.
Proof.
  destruct j as [ | | | | items | members]; try done.
  - rewrite of_json_arr. by destruct (mapS _ items h).
  - rewrite of_json_obj. by destruct (mapS _ members h).
Qed.


Lemma copied_stringify (j : Json) (h : list Obj) (v : Val) (h' h2 : list Obj) :
  copied j h v h' → keeps h' h2 → JSON_stringify h2 v = Some (Some j).
Proof.
  intros (Hh & Hs & _) Hk. apply Hs; [|done].
  apply keeps_length in Hk. lia.
Qed.

(** A new empty array or object serialises to [[]] or [{}]. *)
Lemma new_cell_stringify (o : Obj) (d : Json) (h h2 : list Obj) :
  o = OArr [] ∧ d = JArr [] ∨ o = ORec [] ∧ d = JObj [] →
  keeps (h ++ [o]) h2 →
  JSON_stringify h2 (VRef (length h)) = Some (Some d).
Proof.
  intros Ho Hk. unfold JSON_stringify. simpl.
  rewrite (Hk (length h) o (list_lookup_middle _ _ _ _ eq_refl)).
  by destruct Ho as [[-> ->] | [-> ->]].
Qed.

(** [v || <literal>] for a [v] that came out of [JSON.parse]. *)
Lemma or_new_spec (j d : Json) (o : Obj) (h0 : list Obj) (v : Val) (h1 h2 : list Obj) :
  copied j h0 v h1 → truthy v = json_truthy j → h1 `prefix_of` h2 →
  o = OArr [] ∧ d = JArr [] ∨ o = ORec [] ∧ d = JObj [] →
  h2 `prefix_of` (or_new v o h2).2
  ∧ truthy (or_new v o h2).1 = true
  ∧ ∀ h3, keeps (or_new v o h2).2 h3 →
      JSON_stringify h3 (or_new v o h2).1 = Some (Some (json_or j d)).
Proof.
  intros Hc Ht Hp Ho. unfold or_new, json_or. rewrite <- Ht.
  destruct (truthy v) eqn:Etv; simpl.
  - split; [done|]. split; [done|]. intros h3 Hk.
    eapply copied_stringify; [exact Hc|].
    eapply keeps_trans; [by apply prefix_keeps | exact Hk].
  - split; [by apply prefix_app_r|]. split; [done|]. intros h3 Hk.
    by eapply new_cell_stringify.
Qed.

Lemma or_else_spec (j : Json) (h0 : list Obj) (v : Val) (h1 h2 : list Obj) (s : string) :
  copied j h0 v h1 → truthy v = json_truthy j → keeps h1 h2 → s ≠ "" →
  truthy (or_else v (VStr s)) = true
  ∧ JSON_stringify h2 (or_else v (VStr s)) = Some (Some (json_or j (JStr s))).
Proof.
  intros Hc Ht Hk Hs. unfold or_else, json_or. rewrite <- Ht.
  destruct (truthy v) eqn:Etv.
  - split; [done|]. by eapply copied_stringify.
  - split; [|done]. simpl. apply negb_true_iff. by apply String.eqb_neq.
Qed.

Lemma newDefaultRow_spec (h : list Obj) :
  h `prefix_of` (newDefaultRow h).2
  ∧ (∀ f, truthy (field f (newDefaultRow h).1) = true)
  ∧ ∀ h2, keeps (newDefaultRow h).2 h2 →
      reads_as h2 (newDefaultRow h).1 (fetchedJson (failed "")).
Proof.
  unfold newDefaultRow, alloc. simpl.
  split; [rewrite <- !app_assoc; by apply prefix_app_r|].
  split; [by intros []|]. intros h2 Hk.
  repeat split; simpl.
  - eapply (new_cell_stringify (OArr [])); [by left|].
    eapply keeps_trans; [|exact Hk].
    rewrite <- (app_assoc (h ++ [OArr []])). apply keeps_app.
  - eapply (new_cell_stringify (ORec [])); [by right|].
    eapply keeps_trans; [|exact Hk]. apply keeps_app.
  - eapply (new_cell_stringify (OArr [])); [by left|]. exact Hk.
Qed.

Lemma fetchedRow_spec (d : BoardDataJson) (h : list Obj) :
  h `prefix_of` (fetchedRow d h).2
  ∧ (∀ f, truthy (field f (fetchedRow d h).1) = true)
  ∧ ∀ h2, keeps (fetchedRow d h).2 h2 →
      reads_as h2 (fetchedRow d h).1 (fetchedJson (ok d)).
Proof.
  unfold fetchedRow.
  pose proof (of_json_truthy (tasks_json d) h) as Tt.
  destruct (of_json (tasks_json d) h) as [t0 h1] eqn:E1.
  pose proof (of_json_truthy (settings_json d) h1) as Ts.
  destruct (of_json (settings_json d) h1) as [s0 h2] eqn:E2.
  pose proof (of_json_truthy (view_json d) h2) as Tv.
  destruct (of_json (view_json d) h2) as [v0 h3] eqn:E3.
  pose proof (of_json_truthy (custom_palettes_json d) h3) as Tp.
  destruct (of_json (custom_palettes_json d) h3) as [p0 h4] eqn:E4.
  simpl in Tt, Ts, Tv, Tp.
  apply of_json_copied in E1 as [P1 C1]. apply of_json_copied in E2 as [P2 C2].
  apply of_json_copied in E3 as [P3 C3]. apply of_json_copied in E4 as [P4 C4].
  assert (h1 `prefix_of` h4) as P14 by (etrans; [exact P2 | by etrans]).
  destruct (or_new_spec _ (JArr []) (OArr []) _ _ _ h4 C1 Tt P14) as (Q5 & T5 & S5);
    [by left|].
  destruct (or_new t0 (OArr []) h4) as [t h5]. simpl in Q5, T5, S5.
  assert (h2 `prefix_of` h5) as P25 by (etrans; [exact P3 | by etrans]).
  destruct (or_new_spec _ (JObj []) (ORec []) _ _ _ h5 C2 Ts P25) as (Q6 & T6 & S6);
    [by right|].
  destruct (or_new s0 (ORec []) h5) as [s h6]. simpl in Q6, T6, S6.
  assert (h4 `prefix_of` h6) as P46 by by etrans.
  destruct (or_new_spec _ (JArr []) (OArr []) _ _ _ h6 C4 Tp P46) as (Q7 & T7 & S7);
    [by left|].
  destruct (or_new p0 (OArr []) h6) as [p h7]. simpl in Q7, T7, S7. simpl.
  assert (h `prefix_of` h4) as P04 by by etrans.
  split; [etrans; [exact P04|]; etrans; [exact Q5|]; by etrans|].
  assert (keeps h3 h7) as K37.
  { apply prefix_keeps. etrans; [exact P4|]. etrans; [exact Q5|]. by etrans. }
  split.
  { intros []; simpl; try done.
    by destruct (or_else_spec _ _ _ _ h7 "default" C3 Tv K37). }
  intros hf Hk. repeat split; simpl.
  - apply S5. eapply keeps_trans; [|exact Hk]. apply prefix_keeps. by etrans.
  - apply S6. eapply keeps_trans; [|exact Hk]. by apply prefix_keeps.
  - eapply or_else_spec; [exact C3 | exact Tv | | done].
    by eapply keeps_trans.
  - by apply S7.
Qed.

Lemma given_Some (s : string) : s ≠ "" → given (Some s) = true.
Proof.
  intros Hs. simpl. apply negb_true_iff. by apply String.eqb_neq.
Qed.

Lemma given_true (projectId : option string) :
  given projectId = true → ∃ s, projectId = Some s ∧ s ≠ "".
Proof.
  destruct projectId as [s|]; simpl; [|done].
  intros H. exists s. split; [done|].
  apply negb_true_iff in H. by apply String.eqb_neq.
Qed.


Lemma isCloudEnabled_false (st : State) :
  supabase st = None → isCloudEnabled st = false.
Proof. unfold isCloudEnabled. by intros ->. Qed.

(** *** Looking an id up *)

Lemma entry_own (k : string) (st : State) (row : BoardRow) :
  boardDataCache st !! k = Some row → entry k st = Some row.
Proof. unfold entry. by intros ->. Qed.



Lemma entry_None (k : string) (st : State) :
  entry k st = None → boardDataCache st !! k = None ∧ inherits k = false.
Proof.
  unfold entry. destruct (boardDataCache st !! k); [done|].
  by destruct (inherits k).
Qed.

(** The lookup depends on the cache and on the inherited objects only. *)
Lemma entry_ext (k : string) (st st' : State) :
  boardDataCache st' !! k = boardDataCache st !! k →
  inherited st' = inherited st →
  entry k st' = entry k st.
Proof.
  unfold entry, inheritedRow, inheritedProp. by intros -> ->.
Qed.

Lemma entry_assign (k : string) (row : BoardRow) (st : State) :
  entry k (assign k row st) = Some row.
Proof. apply entry_own. simpl. apply lookup_insert_eq. Qed.





(** Each getter reads its own field of what the lookup finds, or yields
    [null]. *)
Lemma load_spec (f : Field) (projectId : option string) (st : State) :
  load f projectId st =
    if negb (isCloudEnabled st) || negb (given projectId) then VNull
    else match entry (key projectId) st with
         | Some row => field f row
         | None => VNull
         end.
Proof. by destruct f. Qed.

Lemma save_disabled (f : Field) (projectId : option string) (x : Val) (st : State) :
  isCloudEnabled st = false ∨ given projectId = false →
  save f projectId x st = st.
Proof.
  intros H.
  assert (negb (isCloudEnabled st) || negb (given projectId) = true) as Hg.
  { destruct H as [-> | ->]; [done | by rewrite orb_true_r]. }
  destruct f; simpl;
    unfold saveTasks, saveSettings, saveView, saveCustomPalettes;
    by rewrite Hg.
Qed.

(** C2. While no client is configured, any run of calls of the four
    setters, on any ids and values, leaves the whole module state as it
    was (nothing is stored, nothing is sent), and after it every getter
    returns [null] for every id. *)
Theorem disabled_saves_store_nothing
    (ws : list (Field * option string * Val)) (st : State) :
  supabase st = None →
  saves ws st = st ∧ ∀ f projectId, load f projectId (saves ws st) = VNull.
Proof.
  intros Hoff. apply isCloudEnabled_false in Hoff.
  assert (saves ws st = st) as ->.
  { unfold saves. induction ws as [|[[f i] x] ws IH]; simpl; [done|].
    rewrite save_disabled; auto. }
  split; [done|]. intros f i. rewrite load_spec. by rewrite Hoff.
Qed.

Lemma disabled_saves_store_nothing_witness :
  saves [(View, Some "X", VStr "timeline"); (Tasks, Some "X", VNull)] offline
    = offline
  ∧ ∀ f projectId,
      load f projectId
        (saves [(View, Some "X", VStr "timeline"); (Tasks, Some "X", VNull)]
           offline) = VNull.
Proof. apply disabled_saves_store_nothing. reflexivity. Defined.

(** C10. A setter called with an empty string or without a project id
    returns the module state it was given, whether or not a client is
    configured: no cache entry appears or changes, no heap cell is made,
    no upsert is sent; [persistBoardData] on such an id does nothing
    either. *)
Theorem save_without_id_changes_nothing
    (f : Field) (projectId : option string) (x : Val) (st : State) :
  given projectId = false →
  save f projectId x st = st ∧ persistBoardData projectId st = st.
Proof.
  intros Hg. split; [apply save_disabled; by right|].
  unfold persistBoardData. by rewrite Hg, orb_true_r.
Qed.

Lemma save_without_id_changes_nothing_witness :
  save Tasks (Some "") (VStr "x") online = online
  ∧ persistBoardData (Some "") online = online.
Proof. apply save_without_id_changes_nothing. reflexivity. Defined.

Lemma isCloudEnabled_true (st : State) :
  isCloudEnabled st = true → ∃ c, supabase st = Some c.
Proof. unfold isCloudEnabled. destruct (supabase st); [eauto | done]. Qed.







(** *** Loading a document *)

Lemma ensureBoardDataLoaded_skip
    (resp : Response BoardDataJson) (projectId : option string) (st : State) :
  isCloudEnabled st = false ∨ given projectId = false
    ∨ is_Some (entry (key projectId) st) →
  ensureBoardDataLoaded resp projectId st = (Return tt, st).
Proof.
  unfold ensureBoardDataLoaded.
  intros [-> | [-> | [row ->]]]; simpl; try done.
  - by rewrite orb_true_r.
  - by destruct (_ || _).
Qed.

(** The call on an id that is usable and not cached, spelled out. *)
Lemma ensureBoardDataLoaded_fetch
    (resp : Response BoardDataJson) (id : string) (st : State) :
  isCloudEnabled st = true → id ≠ "" → entry id st = None →
  ensureBoardDataLoaded resp (Some id) st =
    match error resp with
    | Some e =>
        let st1 := emit (SelectBoardData id) st in
        let st2 := if String.eqb (code e) "PGRST116" then st1
                   else emit (Warn "Supabase board_data:") st1 in
        (Return tt,
         assign id (newDefaultRow (heap st)).1
           (set_heap (newDefaultRow (heap st)).2 st2))
    | None =>
        match data resp with
        | None => (Throw "TypeError: data is null", emit (SelectBoardData id) st)
        | Some d =>
            (Return tt,
             assign id (fetchedRow d (heap st)).1
               (set_heap (fetchedRow d (heap st)).2
                  (emit (SelectBoardData id) st)))
        end
    end.
Proof.
  intros Hen Hid Hc. unfold ensureBoardDataLoaded.
  rewrite Hen, (given_Some _ Hid). cbn [negb orb key]. rewrite Hc.
  js_unfold. destruct (error resp) as [e|].
  - by destruct (String.eqb (code e) "PGRST116").
  - destruct (data resp) as [d|]; [|done]. simpl.
    by destruct (fetchedRow d (heap st)).
Qed.

(** A call that returns leaves the id cached whenever it was usable, and
    adds at most one select to the log. *)
Lemma ensureBoardDataLoaded_post
    (resp : Response BoardDataJson) (projectId : option string) (st st' : State) :
  ensureBoardDataLoaded resp projectId st = (Return tt, st') →
  isCloudEnabled st' = isCloudEnabled st
  ∧ (isCloudEnabled st = true → given projectId = true →
       is_Some (entry (key projectId) st'))
  ∧ fetches (log st') ≤ S (fetches (log st)).
Proof.
  intros Hrun.
  destruct (isCloudEnabled st) eqn:Hen; cycle 1.
  { rewrite ensureBoardDataLoaded_skip in Hrun by auto.
    simplify_eq. rewrite Hen. repeat split; [done | lia]. }
  destruct (given projectId) eqn:Hg; cycle 1.
  { rewrite ensureBoardDataLoaded_skip in Hrun by auto.
    simplify_eq. repeat split; [done.. | lia]. }
  destruct (given_true _ Hg) as (id & -> & Hid). simpl.
  destruct (entry id st) as [row|] eqn:Hc.
  { rewrite ensureBoardDataLoaded_skip in Hrun by (simpl; rewrite Hc; eauto).
    simplify_eq. rewrite Hc. repeat split; [done | eauto | lia]. }
  rewrite ensureBoardDataLoaded_fetch in Hrun by done.
  unfold fetches.
  destruct (error resp) as [e|].
  - destruct (String.eqb (code e) "PGRST116"); simpl in Hrun; simplify_eq;
      rewrite entry_assign; (split; [exact Hen|]);
      (split; [eauto|]); simpl; rewrite ?List.filter_app, ?length_app;
      simpl; lia.
  - destruct (data resp) as [d|]; [|done]. simplify_eq.
    rewrite entry_assign. split; [exact Hen|]. split; [eauto|]. simpl.
    rewrite List.filter_app, length_app. simpl. lia.
Qed.

(** After a call that returned, another call finds nothing to do. *)
Lemma ensureBoardDataLoaded_again
    (resp resp' : Response BoardDataJson) (projectId : option string)
    (st st1 : State) :
  ensureBoardDataLoaded resp projectId st = (Return tt, st1) →
  ensureBoardDataLoaded resp' projectId st1 = (Return tt, st1).
Proof.
  intros Hrun.
  destruct (ensureBoardDataLoaded_post _ _ _ _ Hrun) as (Hen & Hc & _).
  apply ensureBoardDataLoaded_skip.
  destruct (isCloudEnabled st1) eqn:Hen1; [|auto].
  destruct (given projectId) eqn:Hg; [|auto].
  right. right. apply Hc; congruence.
Qed.

(** C6. A call of [ensureBoardDataLoaded] on an id whose document is
    cached (or, more generally, for which [boardDataCache[id]] is found)
    returns the state it was given: nothing is fetched, the document is
    as it was. After a call that returned, a second call on
    the same id is such a no-op whatever the backend would answer, so the
    two together add at most one select on [board_data] to the log. *)
Theorem ensureBoardDataLoaded_idempotent
    (resp resp' : Response BoardDataJson) (projectId : option string) (st : State) :
  (is_Some (entry (key projectId) st) →
     ensureBoardDataLoaded resp projectId st = (Return tt, st))
  ∧ (∀ st1, ensureBoardDataLoaded resp projectId st = (Return tt, st1) →
       ensureBoardDataLoaded resp' projectId st1 = (Return tt, st1)
       ∧ fetches (log st1) ≤ S (fetches (log st))).
Proof.
  split.
  - intros Hc. apply ensureBoardDataLoaded_skip. auto.
  - intros st1 Hrun. split; [by eapply ensureBoardDataLoaded_again|].
    by destruct (ensureBoardDataLoaded_post _ _ _ _ Hrun) as (_ & _ & Hn).
Qed.

Lemma ensureBoardDataLoaded_idempotent_witness :
  let st1 := (ensureBoardDataLoaded (failed "PGRST116") (Some "X") online).2 in
  ensureBoardDataLoaded (failed "500") (Some "X") st1 = (Return tt, st1)
  ∧ fetches (log st1) ≤ S (fetches (log online)).
Proof.
  apply (ensureBoardDataLoaded_idempotent (failed "PGRST116") (failed "500")
           (Some "X") online).
  reflexivity.
Defined.

(** *** Deleting a board *)




(** *** Signing out *)




(** *** Creating a board *)

(** C5. [createBoard] returns [null] and leaves the state alone when no
    client is configured. It returns [null] when [getSession()] yields no
    session, with both caches as they were. When the insert into [boards]
    comes back with an error or without a row it returns [null] with both
    caches and the heap as they were, and all it has done is ask for the
    session, send that one insert and print a warning: no insert into
    [board_data] is sent. *)
Theorem createBoard_failures
    (name : string) (session : option Session) (ins : Response string)
    (now : Z) (st : State) :
  (isCloudEnabled st = false →
     createBoard name session ins now st = (Return None, st))
  ∧ (session = None →
       ∃ st', createBoard name session ins now st = (Return None, st')
         ∧ projectsListCache st' = projectsListCache st
         ∧ boardDataCache st' = boardDataCache st
         ∧ heap st' = heap st)
  ∧ (∀ s, isCloudEnabled st = true → session = Some s →
       is_Some (error ins) ∨ data ins = None →
       ∃ st', createBoard name session ins now st = (Return None, st')
         ∧ projectsListCache st' = projectsListCache st
         ∧ boardDataCache st' = boardDataCache st
         ∧ heap st' = heap st
         ∧ log st' = log st ++
             [AuthGetSession; InsertBoard (user_id s) (titled name);
              Warn "Supabase create board:"]).
Proof.
  unfold createBoard. split; [by intros ->|]. split.
  - intros ->. destruct (isCloudEnabled st); js_unfold; eauto.
  - intros s -> -> Hfail. js_unfold.
    destruct (error ins) as [e|], (data ins) as [b|]; simpl;
      try (eexists; split; [reflexivity|]; simpl; by rewrite <- !app_assoc).
    destruct Hfail as [[? ?]|?]; done.
Qed.

Lemma createBoard_failures_witness :
  ∃ st', createBoard "Launch Plan" (Some alice) (failed "23505") 0 online
           = (Return None, st')
    ∧ projectsListCache st' = [] ∧ boardDataCache st' = ∅
    ∧ log st' = [AuthGetSession; InsertBoard "alice" "Launch Plan";
                 Warn "Supabase create board:"].
Proof.
  destruct (createBoard_failures "Launch Plan" (Some alice) (failed "23505") 0 online)
    as (_ & _ & H).
  destruct (H alice eq_refl eq_refl (or_introl (ex_intro _ _ eq_refl)))
    as (st' & Hrun & Hl & Hb & _ & Hlog).
  exists st'. split; [exact Hrun|]. split; [exact Hl|]. split; [exact Hb|].
  exact Hlog.
Defined.

(** *** Auth events that carry a session *)

(** C4, as the code has it. On an "INITIAL_SESSION", "SIGNED_IN" or
    "TOKEN_REFRESHED" event that carries a session, with a client
    configured and a callback registered, the listener runs
    [ensureBoardsListLoaded] to its end and only then calls the callback,
    once, with the event's session. If [getSession()] yields an identity
    and the select on [boards] succeeds, the callback finds the list cache
    replaced by the rows the backend sent for that identity. If the select
    fails, or [getSession()] yields nothing, the list cache is what it was
    before the event, and the callback is called all the same. *)
Theorem signed_in_event_reloads_first
    (event : string) (s : Session) (current : option Session)
    (resp : Response (list BoardsRow)) (st : State) (cb : Callback) :
  event ∈ ["INITIAL_SESSION"; "SIGNED_IN"; "TOKEN_REFRESHED"] →
  isCloudEnabled st = true → authCallback st = Some cb →
  ∃ st', onAuthStateChange event (Some s) current resp st = (Return tt, st')
    ∧ boardDataCache st' = boardDataCache st
    ∧ match current with
      | None =>
          projectsListCache st' = projectsListCache st
          ∧ log st' = log st ++
              [AuthGetSession;
               Notify cb (Some s) (projectsListCache st) (boardDataCache st)]
      | Some c =>
          match error resp with
          | None =>
              projectsListCache st' = map toSummary (default [] (data resp))
              ∧ log st' = log st ++
                  [AuthGetSession; SelectBoards (user_id c);
                   Notify cb (Some s) (map toSummary (default [] (data resp)))
                     (boardDataCache st)]
          | Some _ =>
              projectsListCache st' = projectsListCache st
              ∧ log st' = log st ++
                  [AuthGetSession; SelectBoards (user_id c);
                   Warn "Supabase boards list:";
                   Notify cb (Some s) (projectsListCache st) (boardDataCache st)]
          end
      end.
Proof.
  intros Hev Hen Hcb.
  assert (String.eqb event "INITIAL_SESSION" || String.eqb event "SIGNED_IN"
            || String.eqb event "TOKEN_REFRESHED" = true) as Hsel.
  { rewrite !elem_of_cons in Hev.
    destruct Hev as [-> | [-> | [-> | Hev]]]; [done.. | by inversion Hev]. }
  unfold onAuthStateChange, ensureBoardsListLoaded. rewrite Hsel.
  unfold bind at 1. rewrite Hen. js_unfold. unfold notify.
  destruct current as [c|]; simpl.
  - destruct (error resp) as [e|]; simpl; rewrite Hcb;
      (eexists; split; [reflexivity|]); simpl; by rewrite <- !app_assoc.
  - rewrite Hcb. eexists. split; [reflexivity|]. simpl.
    by rewrite <- !app_assoc.
Qed.

Lemma signed_in_event_reloads_first_witness :
  ∃ st', onAuthStateChange "SIGNED_IN" (Some bob) (Some bob)
           (ok [{| row_id := "b2"; row_name := ""; row_created_at := 2000 |}])
           withAliceList = (Return tt, st')
    ∧ last (log st')
        = Some (Notify 0 (Some bob) [Summary.make "b2" "Untitled project" 2000] ∅).
Proof.
  destruct (signed_in_event_reloads_first "SIGNED_IN" bob (Some bob)
              (ok [{| row_id := "b2"; row_name := ""; row_created_at := 2000 |}])
              withAliceList 0)
    as (st' & Hrun & _ & _ & Hlog).
  - rewrite !elem_of_cons. right. left. reflexivity.
  - reflexivity.
  - reflexivity.
  - exists st'. split; [exact Hrun|]. rewrite Hlog. reflexivity.
Defined.

(** C4 as stated fails: Bob signs in while Alice's list is cached and the
    select on [boards] fails; the callback is called with Bob's session
    and finds Alice's list, which is not what the backend holds for Bob
    (the failed select delivered nothing). *)
Lemma failed_reload_shows_stale_list :
  ∃ st', onAuthStateChange "SIGNED_IN" (Some bob) (Some bob) (failed "500")
           withAliceList = (Return tt, st')
    ∧ log st' = [AuthGetSession; SelectBoards "bob";
                 Warn "Supabase boards list:";
                 Notify 0 (Some bob) [aliceBoard] ∅]
    ∧ loadProjectsList st' = Some [aliceBoard].
Proof. eexists. split; [reflexivity|]. split; reflexivity. Qed.

(** *** What is cached after a load *)







(** *** Duplicating a board *)

Lemma clonable_keeps (h h2 : list Obj) (v : Val) :
  clonable h v = true → keeps h h2 → clonable h2 v = true.
Proof.
  unfold clonable. destruct (truthy v); [|done].
  destruct (JSON_stringify h v) as [[j|]|] eqn:E; try done.
  intros _ Hk. by rewrite (JSON_stringify_keeps _ _ _ _ E Hk).
Qed.

(** [JSON.parse(JSON.stringify(v || <literal>))] returns a copy that owns
    its cells whenever [v] can be serialised. *)
Lemma copyOf_spec (v : Val) (o : Obj) (d : Json) (st : State) :
  o = OArr [] ∧ d = JArr [] ∨ o = ORec [] ∧ d = JObj [] →
  clonable (heap st) v = true →
  ∃ t h' j, copyOf v o st = (Return t, set_heap h' st)
    ∧ heap st `prefix_of` h'
    ∧ copied j (heap st) t h'
    ∧ if truthy v then JSON_stringify (heap st) v = Some (Some j) else j = d.
Proof.
  intros Ho Hcl. unfold copyOf, bind, lift, clone, or_new, clonable in *.
  destruct (truthy v) eqn:Et.
  - simpl. destruct (JSON_stringify (heap st) v) as [[j|]|] eqn:Es; try done.
    unfold JSON_clone. rewrite Es.
    destruct (of_json j (heap st)) as [t h'] eqn:Ej.
    destruct (of_json_copied _ _ _ _ Ej) as [Hp Hc].
    by exists t, h', j.
  - simpl. unfold JSON_clone. simpl.
    rewrite (new_cell_stringify o d (heap st) (heap st ++ [o]) Ho (keeps_refl _)).
    destruct (of_json d (heap st ++ [o])) as [t h'] eqn:Ej.
    destruct (of_json_copied _ _ _ _ Ej) as [Hp Hc].
    exists t, h', d. split; [done|].
    assert (heap st `prefix_of` heap st ++ [o]) as Hp0 by by apply prefix_app_r.
    split; [by etrans|]. split; [|done].
    by apply (copied_widen d (heap st) (heap st ++ [o]) t h' h').
Qed.

Lemma createBoard_ok
    (name : string) (s : Session) (ins : Response string) (id : string)
    (now : Z) (st : State) :
  isCloudEnabled st = true → error ins = None → data ins = Some id →
  createBoard name (Some s) ins now st =
    (Return (Some id),
     set_projectsListCache
       (projectsListCache st ++ [Summary.make id (titled name) now])
       (assign id (newDefaultRow (heap st)).1
          (set_heap (newDefaultRow (heap st)).2
             (emit (InsertBoardData id)
                (emit (InsertBoard (user_id s) (titled name))
                   (emit AuthGetSession st)))))).
Proof.
  intros Hen He Hd. unfold createBoard. rewrite Hen. js_unfold.
  by rewrite He, Hd.
Qed.











(** The scenario run: after the duplicate of "X" as "Y", setting
    [tasks[0].task = "B"] through Y's tasks changes Y's and not X's. *)
Example write_to_copy_leaves_source :
  let st' := (duplicateBoard (Some "X") "Launch Plan Copy" (failed "500")
                (Some alice) (ok "Y") 2000 withTasksA).2 in
  let h := <[8 := ORec [("task", VStr "B")]]> (heap st') in
  reachable (heap st') (loadTasks (Some "Y") st') 8
  ∧ JSON_stringify h (loadTasks (Some "Y") st')
      = Some (Some (JArr [JObj [("task", JStr "B")]]))
  ∧ JSON_stringify h (loadTasks (Some "X") st') = Some (Some tasksA).
Proof.
  split; [|split; reflexivity].
  apply (reach_elem _ 9 [VRef 8] (VRef 8) 8); [reflexivity | | apply reach_self].
  apply list_elem_of_here.
Qed.

(** Without a copy there is sharing: the array a setter was given is the
    one the getter hands out, and a write to it shows in both. *)
Example saved_array_is_shared :
  let st := saveTasks (Some "Z") (loadTasks (Some "X") withTasksA) withTasksA in
  let h := <[0 := ORec [("task", VStr "B")]]> (heap st) in
  JSON_stringify h (loadTasks (Some "X") st)
    = Some (Some (JArr [JObj [("task", JStr "B")]]))
  ∧ JSON_stringify h (loadTasks (Some "Z") st)
      = Some (Some (JArr [JObj [("task", JStr "B")]])).
Proof. split; reflexivity. Qed.

(** * More of the adapter *)

(** ** The project list *)

Lemma titled_nonempty (name : string) : titled name ≠ "".
Proof.
  unfold titled. destruct (String.eqb name "") eqn:E; [done|].
  by apply String.eqb_neq.
Qed.

(** X1. [ensureBoardsListLoaded] returns and never touches the board
    cache, the heap, the client or the callback. Without a client it does
    nothing at all. Without a session it only asks for one. When the
    select on [boards] fails it prints a warning and leaves the list cache
    as it was; when it succeeds the list cache is replaced by one entry
    per row, in the order of the rows, with the rows' ids and creation
    times and no empty name. *)
Theorem ensureBoardsListLoaded_outcomes
    (session : option Session) (resp : Response (list BoardsRow)) (st : State) :
  ∃ st', ensureBoardsListLoaded session resp st = (Return tt, st')
    ∧ boardDataCache st' = boardDataCache st ∧ heap st' = heap st
    ∧ supabase st' = supabase st ∧ authCallback st' = authCallback st
    ∧ (isCloudEnabled st = false → st' = st)
    ∧ (isCloudEnabled st = true →
         match session with
         | None =>
             projectsListCache st' = projectsListCache st
             ∧ log st' = log st ++ [AuthGetSession]
         | Some s =>
             match error resp with
             | Some _ =>
                 projectsListCache st' = projectsListCache st
                 ∧ log st' = log st ++
                     [AuthGetSession; SelectBoards (user_id s);
                      Warn "Supabase boards list:"]
             | None =>
                 projectsListCache st' = toSummary <$> default [] (data resp)
                 ∧ Summary.id <$> projectsListCache st'
                     = row_id <$> default [] (data resp)
                 ∧ Summary.createdAt <$> projectsListCache st'
                     = row_created_at <$> default [] (data resp)
                 ∧ (∀ p, p ∈ projectsListCache st' → Summary.name p ≠ "")
                 ∧ log st' = log st ++ [AuthGetSession; SelectBoards (user_id s)]
             end
         end).
Proof.
  unfold ensureBoardsListLoaded.
  destruct (isCloudEnabled st) eqn:Hen; cbn [negb].
  { js_unfold. destruct session as [s|]; simpl.
    - destruct (error resp) as [e|]; simpl;
        (eexists; split; [reflexivity|]); simpl; do 4 (split; [done|]);
        (split; [done|]); intros _; simpl; rewrite <- ?app_assoc; simpl.
      + done.
      + split; [done|]. split; [by rewrite <- list_fmap_compose|].
        split; [by rewrite <- list_fmap_compose|]. split; [|done].
        intros p Hp. apply list_elem_of_fmap in Hp as (row & -> & _).
        apply titled_nonempty.
    - eexists. split; [reflexivity|]. simpl. do 4 (split; [done|]).
      split; [done|]. intros _. by rewrite <- ?app_assoc. }
  exists st. split; [done|]. do 4 (split; [done|]). split; done.
Qed.

Lemma ensureBoardsListLoaded_outcomes_witness :
  ∃ st', ensureBoardsListLoaded (Some bob)
           (ok [{| row_id := "b2"; row_name := ""; row_created_at := 2000 |}])
           withAliceList = (Return tt, st')
    ∧ projectsListCache st' = [Summary.make "b2" "Untitled project" 2000].
Proof.
  destruct (ensureBoardsListLoaded_outcomes (Some bob)
              (ok [{| row_id := "b2"; row_name := ""; row_created_at := 2000 |}])
              withAliceList) as (st' & Hrun & _ & _ & _ & _ & _ & Hon).
  exists st'. split; [exact Hrun|].
  destruct (Hon eq_refl) as (Hl & _). exact Hl.
Defined.

(** ** Loading a document: what it leaves alone and what it logs *)

(** X2. However [ensureBoardDataLoaded] ends, it leaves the project list,
    the client, the callback and the documents cached under other ids as
    they were, and it only adds cells to the heap: every value that could
    be serialised before serialises to the same JSON afterwards. It
    writes nothing on the objects the cache inherits. *)
Theorem ensureBoardDataLoaded_frame
    (resp : Response BoardDataJson) (projectId : option string)
    (st st' : State) (r : Completion unit) :
  ensureBoardDataLoaded resp projectId st = (r, st') →
  projectsListCache st' = projectsListCache st
  ∧ supabase st' = supabase st ∧ authCallback st' = authCallback st
  ∧ heap st `prefix_of` heap st'
  ∧ (∀ k, k ≠ key projectId → boardDataCache st' !! k = boardDataCache st !! k)
  ∧ (∀ v j, JSON_stringify (heap st) v = Some j →
       JSON_stringify (heap st') v = Some j)
  ∧ inherited st' = inherited st.
Proof.
  intros Hrun.
  enough (projectsListCache st' = projectsListCache st
          ∧ supabase st' = supabase st ∧ authCallback st' = authCallback st
          ∧ heap st `prefix_of` heap st'
          ∧ (∀ k, k ≠ key projectId →
               boardDataCache st' !! k = boardDataCache st !! k)
          ∧ inherited st' = inherited st) as H.
  { destruct H as (? & ? & ? & Hp & ? & ?). repeat (split; [done|]).
    split; [|done].
    intros v j Hs. eapply JSON_stringify_keeps; [exact Hs | by apply prefix_keeps]. }
  destruct (isCloudEnabled st) eqn:Hen; cycle 1.
  { rewrite ensureBoardDataLoaded_skip in Hrun by auto. by simplify_eq. }
  destruct (given projectId) eqn:Hg; cycle 1.
  { rewrite ensureBoardDataLoaded_skip in Hrun by auto. by simplify_eq. }
  destruct (given_true _ Hg) as (id & -> & Hid). simpl.
  destruct (entry id st) as [row|] eqn:Hc.
  { rewrite ensureBoardDataLoaded_skip in Hrun by (simpl; rewrite Hc; eauto).
    by simplify_eq. }
  rewrite ensureBoardDataLoaded_fetch in Hrun by done.
  destruct (error resp) as [e|].
  - destruct (newDefaultRow_spec (heap st)) as (Hp & _).
    destruct (String.eqb (code e) "PGRST116"); simpl in Hrun; simplify_eq;
      simpl; do 4 (split; [done|]); (split; [|done]);
      intros k Hk; by rewrite lookup_insert_ne.
  - destruct (data resp) as [d|]; simplify_eq; simpl; [|done].
    destruct (fetchedRow_spec d (heap st)) as (Hp & _).
    do 4 (split; [done|]). split; [|done].
    intros k Hk. by rewrite lookup_insert_ne.
Qed.

Lemma ensureBoardDataLoaded_frame_witness :
  let st' := (ensureBoardDataLoaded (ok oddRow) (Some "Z") withTasksA).2 in
  projectsListCache st' = projectsListCache withTasksA
  ∧ boardDataCache st' !! "X" = boardDataCache withTasksA !! "X"
  ∧ JSON_stringify (heap st') (loadTasks (Some "X") withTasksA)
      = Some (Some tasksA).
Proof.
  destruct (ensureBoardDataLoaded_frame (ok oddRow) (Some "Z") withTasksA
              (ensureBoardDataLoaded (ok oddRow) (Some "Z") withTasksA).2
              (ensureBoardDataLoaded (ok oddRow) (Some "Z") withTasksA).1)
    as (Hl & _ & _ & _ & Hk & Hs & _).
  - by destruct (ensureBoardDataLoaded (ok oddRow) (Some "Z") withTasksA).
  - split; [exact Hl|]. split; [apply Hk; discriminate|].
    apply Hs. reflexivity.
Defined.



(** ** Creating a board: the success path *)

Lemma newDefaultRow_cells (h : list Obj) :
  (newDefaultRow h).2 = h ++ [OArr []; ORec []; OArr []]
  ∧ (newDefaultRow h).1
      = {| tasks := VRef (length h); settings := VRef (length h + 1);
           view := VStr "default"; custom_palettes := VRef (length h + 2) |}.
Proof.
  unfold newDefaultRow, alloc. simpl. rewrite <- !app_assoc. split; [done|].
  rewrite !length_app. simpl. do 2 f_equal; lia.
Qed.

(** The cells of a new default row are its own, and hold nothing. *)
Lemma newDefaultRow_fresh (h h2 : list Obj) (f : Field) (l : loc) :
  keeps (newDefaultRow h).2 h2 →
  reachable h2 (field f (newDefaultRow h).1) l → length h ≤ l.
Proof.
  destruct (newDefaultRow_cells h) as [-> ->]. intros Hk Hr.
  assert (∀ i o, [OArr []; ORec []; OArr []] !! i = Some o →
            h2 !! (length h + i) = Some o) as Hcell.
  { intros i o Hi. apply Hk. rewrite lookup_app_r by lia.
    by replace (length h + i - length h) with i by lia. }
  assert (∀ i l', i < 3 → reachable h2 (VRef (length h + i)) l' → length h ≤ l')
    as Hall.
  { intros i l' Hi Hr'.
    inversion Hr' as [ | ? vs v ? Hl Hv _ | ? ps k v ? Hl Hv _]; subst; [lia | |].
    - destruct i as [|[|[|i]]]; [| | |lia].
      + rewrite (Hcell 0 _ eq_refl) in Hl. simplify_eq. by inversion Hv.
      + rewrite (Hcell 1 _ eq_refl) in Hl. by simplify_eq.
      + rewrite (Hcell 2 _ eq_refl) in Hl. simplify_eq. by inversion Hv.
    - destruct i as [|[|[|i]]]; [| | |lia].
      + rewrite (Hcell 0 _ eq_refl) in Hl. by simplify_eq.
      + rewrite (Hcell 1 _ eq_refl) in Hl. simplify_eq. by inversion Hv.
      + rewrite (Hcell 2 _ eq_refl) in Hl. by simplify_eq. }
  destruct f; simpl in Hr.
  - apply (Hall 0); [lia|]. by rewrite Nat.add_0_r.
  - by apply (Hall 1); [lia|].
  - inversion Hr.
  - by apply (Hall 2); [lia|].
Qed.

(** X4. When the insert into [boards] succeeds with id [id],
    [createBoard] returns [id]; it has asked for the session and sent the
    two inserts in that order; the list read is the old list with one
    entry added at the end (the id, the name or "Untitled project", the
    time of the call); the four getters return for [id] the fields of a
    new default document ([[]], [{}], ["default"], [[]]) whose arrays and
    object were made by this call; documents cached under other ids are
    as they were. What the backend answers to the second insert plays no
    part. *)
Theorem createBoard_success
    (name : string) (s : Session) (ins : Response string) (id : string)
    (now : Z) (st : State) :
  isCloudEnabled st = true → error ins = None → data ins = Some id → id ≠ "" →
  ∃ st' row,
    createBoard name (Some s) ins now st = (Return (Some id), st')
    ∧ loadProjectsList st'
        = Some (projectsListCache st ++ [Summary.make id (titled name) now])
    ∧ (∀ f, load f (Some id) st' = field f row)
    ∧ reads_as (heap st') row defaultDocument
    ∧ (∀ f l, reachable (heap st') (field f row) l → length (heap st) ≤ l)
    ∧ (∀ k, k ≠ id → boardDataCache st' !! k = boardDataCache st !! k)
    ∧ log st' = log st ++
        [AuthGetSession; InsertBoard (user_id s) (titled name);
         InsertBoardData id].
Proof.
  intros Hen He Hd Hid. rewrite (createBoard_ok _ _ _ id) by done.
  destruct (newDefaultRow_spec (heap st)) as (_ & _ & Hreads).
  eexists _, _. split; [reflexivity|].
  split. { unfold loadProjectsList.
           change (isCloudEnabled (set_projectsListCache _ _))
             with (isCloudEnabled st). by rewrite Hen. }
  split. { intros f. rewrite load_spec.
           change (isCloudEnabled (set_projectsListCache _ _))
             with (isCloudEnabled st).
           rewrite Hen, (given_Some _ Hid). cbn [negb orb key].
           change (entry id (set_projectsListCache ?l ?s)) with (entry id s).
           by rewrite entry_assign. }
  split; [apply Hreads, keeps_refl|].
  split. { intros f l Hr. by eapply newDefaultRow_fresh; [apply keeps_refl|]. }
  split. { intros k Hk. simpl. by rewrite lookup_insert_ne. }
  simpl. by rewrite <- !app_assoc.
Qed.

Lemma createBoard_success_witness :
  ∃ st', createBoard "Launch Plan" (Some alice) (ok "X") 1000 online
           = (Return (Some "X"), st')
    ∧ loadProjectsList st' = Some [Summary.make "X" "Launch Plan" 1000]
    ∧ JSON_stringify (heap st') (load Tasks (Some "X") st') = Some (Some (JArr [])).
Proof.
  destruct (createBoard_success "Launch Plan" alice (ok "X") "X" 1000 online)
    as (st' & row & Hrun & Hl & Hf & (Ht & _) & _); try reflexivity.
  - discriminate.
  - exists st'. split; [exact Hrun|]. split; [exact Hl|].
    rewrite (Hf Tasks). exact Ht.
Defined.

(** ** The setters: what a write leaves alone, what it sends, how writes add up *)

Lemma set_heap_same (st : State) : set_heap (heap st) st = st.
Proof. by destruct st. Qed.













(** ** Deleting: what is kept, and deleting what was just created *)

Lemma deleteBoard_run (id : string) (st : State) :
  isCloudEnabled st = true → id ≠ "" →
  deleteBoard (Some id) st =
    (Return tt,
     set_projectsListCache
       (filter (λ p, Summary.id p ≠ id) (projectsListCache st))
       (set_boardDataCache (delete id (boardDataCache st))
          (emit (DeleteBoard id) st))).
Proof.
  intros Hen Hid. unfold deleteBoard. by rewrite Hen, (given_Some _ Hid).
Qed.

Lemma filter_all {A : Type} (P : A → Prop) `{!∀ x, Decision (P x)} (l : list A) :
  (∀ x, x ∈ l → P x) → filter P l = l.
Proof.
  induction l as [|x l IH]; intros Hall; [done|].
  rewrite filter_cons_True by (apply Hall; left).
  rewrite IH; [done|]. intros y Hy. apply Hall. by right.
Qed.

(** X8. [deleteBoard] on a usable id X removes X and nothing else: the
    entries of the project list with another id stay, in their order; the
    documents cached under other ids read as before; the heap is not
    touched (arrays handed out earlier stay as they are); one delete on
    [boards] is sent. If no entry has id X the list is unchanged. *)
Theorem deleteBoard_frame (id : string) (st : State) :
  isCloudEnabled st = true → id ≠ "" →
  ∃ st', deleteBoard (Some id) st = (Return tt, st')
    ∧ heap st' = heap st ∧ supabase st' = supabase st
    ∧ authCallback st' = authCallback st
    ∧ log st' = log st ++ [DeleteBoard id]
    ∧ (∀ g k, k ≠ id → load g (Some k) st' = load g (Some k) st)
    ∧ (∀ p, p ∈ projectsListCache st' ↔
            p ∈ projectsListCache st ∧ Summary.id p ≠ id)
    ∧ projectsListCache st' `sublist_of` projectsListCache st
    ∧ ((∀ p, p ∈ projectsListCache st → Summary.id p ≠ id) →
         projectsListCache st' = projectsListCache st).
Proof.
  intros Hen Hid. rewrite deleteBoard_run by done.
  eexists. split; [reflexivity|]. simpl. do 4 (split; [done|]).
  split.
  { intros g k Hk. rewrite !load_spec.
    change (isCloudEnabled (set_projectsListCache _ _)) with (isCloudEnabled st).
    destruct (_ || _); [done|].
    change (entry (key (Some k)) (set_projectsListCache ?l ?s)) with (entry k s).
    assert (entry k (set_boardDataCache (delete id (boardDataCache st))
                       (emit (DeleteBoard id) st)) = entry k st) as ->; [|done].
    apply entry_ext; [|done]. simpl. by apply lookup_delete_ne. }
  split. { intros p. rewrite list_elem_of_filter. tauto. }
  split; [apply sublist_filter|]. intros Hall. by apply filter_all.
Qed.

Lemma deleteBoard_frame_witness :
  ∃ st', deleteBoard (Some "Z") withTasksA = (Return tt, st')
    ∧ load Tasks (Some "X") st' = load Tasks (Some "X") withTasksA
    ∧ heap st' = heap withTasksA.
Proof.
  destruct (deleteBoard_frame "Z" withTasksA eq_refl ltac:(discriminate))
    as (st' & Hrun & Hh & _ & _ & _ & Hk & _).
  exists st'. split; [exact Hrun|]. split; [apply Hk; discriminate | exact Hh].
Defined.

(** X9. Creating a board and deleting it again gives back the caches:
    when the backend hands out an id that is not in the project list, the
    list after [createBoard] and [deleteBoard] of that id is the list
    before, and the board cache is the one before without that id (the
    one before, if the id was not cached). *)
Theorem create_then_delete
    (name : string) (s : Session) (ins : Response string) (id : string)
    (now : Z) (st : State) :
  isCloudEnabled st = true → error ins = None → data ins = Some id → id ≠ "" →
  (∀ p, p ∈ projectsListCache st → Summary.id p ≠ id) →
  ∃ st1 st2,
    createBoard name (Some s) ins now st = (Return (Some id), st1)
    ∧ deleteBoard (Some id) st1 = (Return tt, st2)
    ∧ projectsListCache st2 = projectsListCache st
    ∧ boardDataCache st2 = delete id (boardDataCache st)
    ∧ (boardDataCache st !! id = None → boardDataCache st2 = boardDataCache st).
Proof.
  intros Hen He Hd Hid Hnew. rewrite (createBoard_ok _ _ _ id) by done.
  eexists _, _. split; [reflexivity|].
  rewrite deleteBoard_run by done. split; [reflexivity|]. simpl.
  split.
  { rewrite filter_app, filter_all by done.
    rewrite filter_cons_False by (simpl; tauto). by rewrite app_nil_r. }
  split; [apply delete_insert_eq|]. intros Hc. by apply delete_insert_id.
Qed.

Lemma create_then_delete_witness :
  ∃ st1 st2,
    createBoard "Launch Plan" (Some alice) (ok "b9") 5 withAliceList
      = (Return (Some "b9"), st1)
    ∧ deleteBoard (Some "b9") st1 = (Return tt, st2)
    ∧ projectsListCache st2 = [aliceBoard].
Proof.
  destruct (create_then_delete "Launch Plan" alice (ok "b9") "b9" 5 withAliceList)
    as (st1 & st2 & H1 & H2 & Hl & _); try reflexivity.
  - discriminate.
  - intros p Hp. apply list_elem_of_singleton in Hp as ->. discriminate.
  - exists st1, st2. split; [exact H1|]. split; [exact H2 | exact Hl].
Defined.

(** ** Duplicating: the list, the log, and a source that cannot be copied *)

Lemma renameFirst_new (id newName : string) (now : Z) (l : list Summary.t) :
  (∀ p, p ∈ l → Summary.id p ≠ id) →
  renameFirst id newName (l ++ [Summary.make id (titled newName) now])
    = l ++ [Summary.make id (titled newName) now].
Proof.
  induction l as [|p l IH]; intros Hnew; simpl.
  - rewrite String.eqb_refl. unfold titled.
    by destruct (String.eqb newName "").
  - assert (String.eqb (Summary.id p) id = false) as ->.
    { apply String.eqb_neq, Hnew. left. }
    rewrite IH; [done|]. intros q Hq. apply Hnew. by right.
Qed.

(** The cached-source run of [duplicateBoard], with what it leaves in the
    list and the log. *)
Lemma duplicateBoard_run
    (X newName : string) (fetch : Response BoardDataJson) (s : Session)
    (ins : Response string) (now : Z) (Y : string) (row : BoardRow) (st : State) :
  isCloudEnabled st = true → boardDataCache st !! X = Some row →
  error ins = None → data ins = Some Y → Y ≠ "" →
  (∀ f, f ≠ View → clonable (heap st) (field f row) = true) →
  ∃ st' rowY,
    duplicateBoard (Some X) newName fetch (Some s) ins now st
      = (Return (Some Y), st')
    ∧ isCloudEnabled st' = true
    ∧ boardDataCache st' !! Y = Some rowY
    ∧ projectsListCache st'
        = renameFirst Y newName
            (projectsListCache st ++ [Summary.make Y (titled newName) now])
    ∧ log st' = log st ++
        [AuthGetSession; InsertBoard (user_id s) (titled newName);
         InsertBoardData Y; UpsertBoardData Y rowY].
Proof.
  intros Hen Hc He Hd HY Hcl.
  unfold duplicateBoard. rewrite Hen. cbn [negb].
  unfold bind at 1.
  rewrite ensureBoardDataLoaded_skip
    by (simpl; rewrite (entry_own _ _ _ Hc); eauto).
  unfold bind at 1, read. cbn [key]. rewrite (entry_own _ _ _ Hc).
  unfold bind at 1. rewrite (createBoard_ok _ _ _ Y) by done.
  set (st0 := set_projectsListCache _ _).
  assert (heap st `prefix_of` heap st0) as P0 by apply newDefaultRow_spec.
  assert (String.eqb Y "" = false) as -> by by apply String.eqb_neq.
  destruct (copyOf_spec (tasks row) (OArr []) (JArr []) st0)
    as (t & ht & jt & Et & Pt & _);
    [by left | eapply clonable_keeps; [by apply (Hcl Tasks) | by apply prefix_keeps] |].
  unfold bind at 1. rewrite Et.
  destruct (copyOf_spec (settings row) (ORec []) (JObj []) (set_heap ht st0))
    as (s' & hs & js & Es & Ps & _);
    [by right | eapply clonable_keeps; [by apply (Hcl Settings) |
       apply prefix_keeps; by etrans] |].
  unfold bind at 1. rewrite Es.
  destruct (copyOf_spec (custom_palettes row) (OArr []) (JArr [])
              (set_heap hs (set_heap ht st0)))
    as (p & hp & jp & Ep & Pp & _);
    [by left | eapply clonable_keeps; [by apply (Hcl CustomPalettes) |
       apply prefix_keeps; etrans; [exact P0 | by etrans]] |].
  unfold bind at 1. rewrite Ep.
  js_unfold. unfold persistBoardData. simpl.
  change (isCloudEnabled (assign Y _ _)) with (isCloudEnabled st). rewrite Hen.
  assert (String.eqb Y "" = false) as -> by by apply String.eqb_neq.
  simpl. rewrite entry_assign.
  eexists _, _. split; [reflexivity|]. simpl. split; [exact Hen|].
  split; [by rewrite lookup_insert_eq|]. split; [done|].
  by rewrite <- !app_assoc.
Qed.

(** X10. A successful [duplicateBoard] of a cached source sends no select
    (the source is read from the cache): it asks for the session, sends
    the two inserts of [createBoard], then one upsert carrying the copied
    document. When the new id is not yet in the project list, the list
    afterwards is the old list with one entry added at the end, under the
    new name or "Untitled project". *)
Theorem duplicateBoard_list_and_log
    (X newName : string) (fetch : Response BoardDataJson) (s : Session)
    (ins : Response string) (now : Z) (Y : string) (row : BoardRow) (st : State) :
  isCloudEnabled st = true → boardDataCache st !! X = Some row →
  error ins = None → data ins = Some Y → Y ≠ "" →
  (∀ f, f ≠ View → clonable (heap st) (field f row) = true) →
  (∀ p, p ∈ projectsListCache st → Summary.id p ≠ Y) →
  ∃ st' rowY,
    duplicateBoard (Some X) newName fetch (Some s) ins now st
      = (Return (Some Y), st')
    ∧ boardDataCache st' !! Y = Some rowY
    ∧ loadProjectsList st'
        = Some (projectsListCache st ++ [Summary.make Y (titled newName) now])
    ∧ log st' = log st ++
        [AuthGetSession; InsertBoard (user_id s) (titled newName);
         InsertBoardData Y; UpsertBoardData Y rowY]
    ∧ fetches (log st') = fetches (log st).
Proof.
  intros Hen Hc He Hd HY Hcl Hnew.
  destruct (duplicateBoard_run X newName fetch s ins now Y row st)
    as (st' & rowY & Hrun & Hen' & HcY & Hl & Hlog); try done.
  exists st', rowY. split; [done|]. split; [done|].
  split. { unfold loadProjectsList. rewrite Hen'. simpl.
           by rewrite Hl, renameFirst_new. }
  split; [done|]. rewrite Hlog. unfold fetches.
  rewrite List.filter_app. simpl. by rewrite app_nil_r.
Qed.

Lemma duplicateBoard_list_and_log_witness :
  ∃ st' rowY,
    duplicateBoard (Some "X") "" (failed "500") (Some alice) (ok "Y") 2000
      withTasksA = (Return (Some "Y"), st')
    ∧ loadProjectsList st' = Some [Summary.make "Y" "Untitled project" 2000]
    ∧ log st' = log withTasksA ++
        [AuthGetSession; InsertBoard "alice" "Untitled project";
         InsertBoardData "Y"; UpsertBoardData "Y" rowY].
Proof.
  destruct (duplicateBoard_list_and_log "X" "" (failed "500") alice (ok "Y")
              2000 "Y"
              {| tasks := VRef 1; settings := VRef 3; view := VStr "default";
                 custom_palettes := VRef 4 |} withTasksA)
    as (st' & rowY & Hrun & _ & Hl & Hlog & _); try reflexivity.
  - discriminate.
  - intros [] _; vm_compute; reflexivity.
  - intros p Hp. inversion Hp.
  - exists st', rowY. split; [exact Hrun|]. split; [exact Hl | exact Hlog].
Defined.

Lemma chain_keeps (h h2 : list Obj) (v : Val) (p : list loc) :
  keeps h h2 → chain h v p → chain h2 v p.
Proof.
  intros Hk. induction 1 as [|l o v p Hl Hv _ IH]; [constructor|].
  eapply chain_cons; eauto.
Qed.

(** X11. [duplicateBoard] is not all-or-nothing. If the source's tasks
    are an array or object that holds itself, directly or further down,
    [JSON.stringify] throws and so does [duplicateBoard], after
    [createBoard] has run: the state it leaves is exactly the one
    [createBoard] returned, with the new board in the list and its default
    document cached, and no upsert sent. *)
Theorem duplicateBoard_uncopyable
    (X newName : string) (fetch : Response BoardDataJson) (s : Session)
    (ins : Response string) (now : Z) (Y : string) (row : BoardRow)
    (l : loc) (p : list loc) (st : State) :
  isCloudEnabled st = true → boardDataCache st !! X = Some row →
  error ins = None → data ins = Some Y → Y ≠ "" →
  tasks row = VRef l → chain (heap st) (VRef l) (l :: p) → l ∈ p →
  ∃ what st',
    duplicateBoard (Some X) newName fetch (Some s) ins now st = (Throw what, st')
    ∧ createBoard newName (Some s) ins now st = (Return (Some Y), st').
Proof.
  intros Hen Hc He Hd HY Ht Hchain Hin.
  unfold duplicateBoard. rewrite Hen. cbn [negb].
  unfold bind at 1.
  rewrite ensureBoardDataLoaded_skip
    by (simpl; rewrite (entry_own _ _ _ Hc); eauto).
  unfold bind at 1, read. cbn [key]. rewrite (entry_own _ _ _ Hc).
  unfold bind at 1. rewrite (createBoard_ok _ _ _ Y) by done.
  set (st0 := set_projectsListCache _ _).
  assert (heap st `prefix_of` heap st0) as P0 by apply newDefaultRow_spec.
  assert (String.eqb Y "" = false) as -> by by apply String.eqb_neq.
  assert (JSON_stringify (heap st0) (VRef l) = None) as Hnone.
  { eapply stringify_cycle; [|exact Hin].
    eapply chain_keeps; [by apply prefix_keeps | exact Hchain]. }
  assert (copyOf (tasks row) (OArr []) st0 = (Throw "JSON", st0)) as Hcopy.
  { unfold copyOf, bind, lift, or_new. rewrite Ht. cbn [truthy].
    cbv beta iota zeta. unfold clone, JSON_clone.
    change (heap (set_heap (heap st0) st0)) with (heap st0). rewrite Hnone.
    by rewrite set_heap_same. }
  unfold bind at 1. rewrite Hcopy. eauto.
Qed.

Lemma duplicateBoard_uncopyable_witness :
  ∃ what st',
    duplicateBoard (Some "X") "Copy" (failed "500") (Some alice) (ok "Y") 7
      withCycle = (Throw what, st')
    ∧ loadProjectsList st' = Some [Summary.make "Y" "Copy" 7].
Proof.
  destruct (duplicateBoard_uncopyable "X" "Copy" (failed "500") alice (ok "Y") 7
              "Y"
              {| tasks := VRef 0; settings := VRef 2; view := VStr "default";
                 custom_palettes := VRef 3 |} 0 [0] withCycle)
    as (what & st' & Hrun & Hcreate); try reflexivity.
  - discriminate.
  - apply (chain_cons _ 0 (OArr [VRef 0]) (VRef 0) [0]);
      [reflexivity | apply list_elem_of_here |].
    apply (chain_cons _ 0 (OArr [VRef 0]) (VRef 0) []);
      [reflexivity | apply list_elem_of_here | apply chain_nil].
  - apply list_elem_of_here.
  - exists what, st'. split; [exact Hrun|].
    vm_compute in Hcreate. injection Hcreate as <-. reflexivity.
Defined.

(** ** The listener on other events *)

(** X12. On a "SIGNED_IN", "INITIAL_SESSION" or "TOKEN_REFRESHED" event
    that carries no session, and on any event other than those three and
    "SIGNED_OUT", the listener asks nothing of the backend and changes no
    cache: all it does is call the registered callback, if there is one,
    with the event's session. In particular an initial event without a
    session does not empty the caches. *)
Theorem listener_only_notifies
    (event : string) (session current : option Session)
    (resp : Response (list BoardsRow)) (st : State) :
  event ≠ "SIGNED_OUT" →
  session = None
    ∨ event ∉ ["INITIAL_SESSION"; "SIGNED_IN"; "TOKEN_REFRESHED"] →
  onAuthStateChange event session current resp st
    = (Return tt, notify session st)
  ∧ projectsListCache (notify session st) = projectsListCache st
  ∧ boardDataCache (notify session st) = boardDataCache st
  ∧ log (notify session st) = log st ++
      match authCallback st with
      | Some cb => [Notify cb session (projectsListCache st) (boardDataCache st)]
      | None => []
      end.
Proof.
  intros Hout Hcase. split.
  - unfold onAuthStateChange.
    assert (String.eqb event "SIGNED_OUT" = false) as Hso
      by by apply String.eqb_neq.
    destruct (String.eqb event "INITIAL_SESSION" || String.eqb event "SIGNED_IN"
              || String.eqb event "TOKEN_REFRESHED") eqn:Hsel.
    + destruct Hcase as [-> | Hnot]; [done|]. exfalso. apply Hnot.
      rewrite !elem_of_cons.
      apply orb_true_iff in Hsel as [Hsel | Hsel];
        [apply orb_true_iff in Hsel as [Hsel | Hsel]|];
        apply String.eqb_eq in Hsel; auto.
    + by rewrite Hso.
  - unfold notify. destruct (authCallback st); simpl; [done|].
    by rewrite app_nil_r.
Qed.

Lemma listener_only_notifies_witness :
  onAuthStateChange "INITIAL_SESSION" None None (failed "500") withAliceList
    = (Return tt, notify None withAliceList)
  ∧ projectsListCache (notify None withAliceList) = [aliceBoard].
Proof.
  destruct (listener_only_notifies "INITIAL_SESSION" None None (failed "500")
              withAliceList) as (Hrun & Hl & _).
  - discriminate.
  - left. reflexivity.
  - split; [exact Hrun | exact Hl].
Defined.

(** ** The session callback *)

Lemma notified_app (cb : Callback) (l l' : list Effect) :
  notified cb (l ++ l') = notified cb l ++ notified cb l'.
Proof. apply omap_app. Qed.


(** [ensureBoardsListLoaded] calls no callback and registers none. *)
Lemma ensureBoardsListLoaded_quiet
    (session : option Session) (resp : Response (list BoardsRow)) (st : State) :
  ∃ st', ensureBoardsListLoaded session resp st = (Return tt, st')
    ∧ authCallback st' = authCallback st
    ∧ ∀ g, notified g (log st') = notified g (log st).
Proof.
  unfold ensureBoardsListLoaded. destruct (isCloudEnabled st); cbn [negb];
    [|by exists st].
  js_unfold. destruct session as [s|]; simpl.
  - destruct (error resp); simpl; (eexists; split; [reflexivity|]); simpl;
      (split; [done|]); intros g; rewrite !notified_app; simpl;
      by rewrite ?app_nil_r.
  - eexists. split; [reflexivity|]. simpl. split; [done|]. intros g.
    rewrite notified_app. simpl. by rewrite app_nil_r.
Qed.

(** X13. [onAuthChange(cb)] makes [cb] the registered callback, whatever
    was registered before, and changes neither cache. With a client and a
    function [cb] it asks for the session and calls [cb] once with it;
    without a client, or with no function, it asks nothing and calls
    nothing. The callback registered before is not called. *)
Theorem onAuthChange_registers
    (cb : option Callback) (current : option Session) (st : State) :
  ∃ st', onAuthChange cb current st = (Return tt, st')
    ∧ authCallback st' = cb
    ∧ projectsListCache st' = projectsListCache st
    ∧ boardDataCache st' = boardDataCache st
    ∧ supabase st' = supabase st ∧ heap st' = heap st
    ∧ log st' = log st ++
        match cb with
        | Some f =>
            if isCloudEnabled st
            then [AuthGetSession;
                  Notify f current (projectsListCache st) (boardDataCache st)]
            else []
        | None => []
        end
    ∧ ∀ g, cb ≠ Some g → notified g (log st') = notified g (log st).
Proof.
  unfold onAuthChange, bind at 1, act. unfold isCloudEnabled. simpl.
  destruct (supabase st) as [c|] eqn:Hs, cb as [f|]; js_unfold;
    (eexists; split; [reflexivity|]); simpl; rewrite ?Hs;
    do 5 (split; [done|]); rewrite <- ?app_assoc, ?app_nil_r; simpl;
    (split; [done|]); intros g Hg; try done.
  rewrite notified_app. simpl.
  destruct (Nat.eqb f g) eqn:E; [|by rewrite app_nil_r].
  apply Nat.eqb_eq in E. congruence.
Qed.

Lemma onAuthChange_registers_witness :
  ∃ st', onAuthChange (Some 1) (Some alice) withAliceList = (Return tt, st')
    ∧ authCallback st' = Some 1
    ∧ notified 0 (log st') = notified 0 (log withAliceList)
    ∧ notified 1 (log st') = [Some alice].
Proof.
  destruct (onAuthChange_registers (Some 1) (Some alice) withAliceList)
    as (st' & Hrun & Hcb & _ & _ & _ & _ & Hlog & Hold).
  exists st'. split; [exact Hrun|]. split; [exact Hcb|].
  split; [apply Hold; discriminate|]. rewrite Hlog. reflexivity.
Defined.



(** ** Renaming through the project list *)

Lemma send_all (l : list Summary.t) (pg : Page) :
  let pg' := foldl (λ pg' item,
                      send (UpdateBoardName (Summary.id item)
                              (titled (Summary.name item))) pg') pg l in
  adapter pg' = adapter pg
  ∧ sent pg' = sent pg ++
      ((λ item, UpdateBoardName (Summary.id item) (titled (Summary.name item)))
         <$> l).
Proof.
  revert pg. induction l as [|item l IH]; intros pg; simpl.
  - by rewrite app_nil_r.
  - destruct (IH (send (UpdateBoardName (Summary.id item)
                          (titled (Summary.name item))) pg)) as [Ha Hs].
    split; [by rewrite Ha|]. rewrite Hs. simpl. by rewrite <- app_assoc.
Qed.

(** The number of answers that carry an error. *)
Lemma warn_all (answers : list (option PgError)) (pg : Page) :
  let pg' := foldl (λ pg' a,
                      match a with
                      | Some _ => on (emit (Warn "Supabase update board name:")) pg'
                      | None => pg'
                      end) pg answers in
  sent pg' = sent pg
  ∧ projectsListCache (adapter pg') = projectsListCache (adapter pg)
  ∧ boardDataCache (adapter pg') = boardDataCache (adapter pg)
  ∧ heap (adapter pg') = heap (adapter pg)
  ∧ supabase (adapter pg') = supabase (adapter pg)
  ∧ log (adapter pg') = log (adapter pg) ++
      replicate (length (filter is_Some answers))
        (Warn "Supabase update board name:").
Proof.
  revert pg. induction answers as [|a answers IH]; intros pg; simpl.
  - by rewrite app_nil_r.
  - destruct a as [e|].
    + destruct (IH (on (emit (Warn "Supabase update board name:")) pg))
        as (H1 & H2 & H3 & H4 & H5 & H6).
      rewrite filter_cons_True by eauto. simpl in *.
      do 5 (split; [done|]). by rewrite H6, <- app_assoc.
    + destruct (IH pg) as (H1 & H2 & H3 & H4 & H5 & H6).
      rewrite filter_cons_False by (by intros [? ?]). done.
Qed.

(** X15. [saveProjectsList] does nothing without a client or when its
    argument is not an array. Otherwise the list read afterwards is the
    list that was given, whatever the backend answers to the updates: a
    failed update is reported with a warning and rolls nothing back. One
    update is sent per entry, in the order of the entries, each with the
    entry's id and its name, or "Untitled project" for an empty name (the
    cached entry keeps the empty name). The board cache and the heap are
    not touched. *)
Theorem saveProjectsList_spec
    (list : option (Datatypes.list Summary.t))
    (answers : Datatypes.list (option PgError)) (pg : Page) :
  (isCloudEnabled (adapter pg) = false ∨ list = None →
     saveProjectsList list answers pg = pg)
  ∧ (∀ l, list = Some l → isCloudEnabled (adapter pg) = true →
       let pg' := saveProjectsList list answers pg in
       loadProjectsList (adapter pg') = Some l
       ∧ sent pg' = sent pg ++
           ((λ item, UpdateBoardName (Summary.id item) (titled (Summary.name item)))
              <$> l)
       ∧ boardDataCache (adapter pg') = boardDataCache (adapter pg)
       ∧ heap (adapter pg') = heap (adapter pg)
       ∧ log (adapter pg') = log (adapter pg) ++
           replicate (length (filter is_Some (take (length l) answers)))
             (Warn "Supabase update board name:")).
Proof.
  unfold saveProjectsList, isCloudEnabled. split.
  - intros [H | ->]; destruct (supabase (adapter pg)); done.
  - intros l -> Hen. destruct (supabase (adapter pg)) as [c|] eqn:Hs; [|done].
    cbv zeta.
    set (pg1 := on (set_projectsListCache l) pg).
    destruct (send_all l pg1) as [Ha Hsent].
    set (pg2 := foldl _ pg1 l) in *.
    destruct (warn_all (take (length l) answers) pg2)
      as (H1 & H2 & H3 & H4 & H5 & H6).
    set (pg3 := foldl _ pg2 _) in *.
    unfold loadProjectsList, isCloudEnabled.
    rewrite H5, Ha, H1, H2, H3, H4, H6, Ha, Hsent. simpl. by rewrite Hs.
Qed.

Lemma saveProjectsList_spec_witness :
  let pg' := saveProjectsList (Some [Summary.make "b1" "" 1000])
               [Some {| code := "500"; message := "" |}] alicePage in
  loadProjectsList (adapter pg') = Some [Summary.make "b1" "" 1000]
  ∧ sent pg' = [UpdateBoardName "b1" "Untitled project"]
  ∧ log (adapter pg') = [Warn "Supabase update board name:"].
Proof.
  destruct (saveProjectsList_spec (Some [Summary.make "b1" "" 1000])
              [Some {| code := "500"; message := "" |}] alicePage) as [_ H].
  destruct (H [Summary.make "b1" "" 1000] eq_refl eq_refl)
    as (Hl & Hs & _ & _ & Hlog).
  split; [exact Hl|]. split; [exact Hs | exact Hlog].
Defined.

(** ** Signing in and up *)

Lemma tryLoadList_spec
    (current : option Session) (resp : Response (list BoardsRow)) (pg : Page) :
  ∃ st1, ensureBoardsListLoaded current resp (adapter pg) = (Return tt, st1)
    ∧ tryLoadList current resp pg
        = {| adapter := st1; initConfig := initConfig pg; sent := sent pg;
             library := library pg; localStorage := localStorage pg |}.
Proof.
  destruct (ensureBoardsListLoaded_quiet current resp (adapter pg))
    as (st1 & Hrun & _).
  exists st1. split; [done|]. unfold tryLoadList, run. by rewrite Hrun.
Qed.

(** X16. A sign-in that fails changes nothing that is cached and calls
    no callback. Without a client [signIn] answers "Supabase not
    configured" and does nothing. With a client, when
    [signInWithPassword] throws or answers with an error, [signIn]
    returns that error; all it has done is send the one sign-in call and
    print one warning: no session is asked for, the list is not reloaded
    and the callback is not called. *)
Theorem signIn_failure
    (email password : string) (attempt : Completion AuthAnswer)
    (current : option Session) (resp : Response (list BoardsRow)) (pg : Page) :
  (isCloudEnabled (adapter pg) = false →
     signIn email password attempt current resp pg
       = (SignFailed "Supabase not configured", pg))
  ∧ (∀ msg, isCloudEnabled (adapter pg) = true →
       attempt = Throw msg
         ∨ (∃ a, attempt = Return a ∧ answer_error a = Some msg) →
       ∃ pg', signIn email password attempt current resp pg = (SignFailed msg, pg')
         ∧ sent pg' = sent pg ++ [SignInWithPassword email password]
         ∧ projectsListCache (adapter pg') = projectsListCache (adapter pg)
         ∧ boardDataCache (adapter pg') = boardDataCache (adapter pg)
         ∧ authCallback (adapter pg') = authCallback (adapter pg)
         ∧ log (adapter pg') = log (adapter pg) ++ [Warn "[Supabase auth]"]).
Proof.
  unfold signIn. split; [by intros ->|].
  intros msg -> [-> | (a & -> & ->)]; cbn [negb]; eexists; by split.
Qed.

Lemma signIn_failure_witness :
  ∃ pg', signIn "a@b.c" "pw"
           (Return {| answer_session := None;
                      answer_error := Some "Invalid login credentials" |})
           None (failed "500") alicePage
           = (SignFailed "Invalid login credentials", pg')
    ∧ projectsListCache (adapter pg') = [aliceBoard]
    ∧ log (adapter pg') = [Warn "[Supabase auth]"].
Proof.
  destruct (signIn_failure "a@b.c" "pw"
              (Return {| answer_session := None;
                         answer_error := Some "Invalid login credentials" |})
              None (failed "500") alicePage) as [_ H].
  destruct (H "Invalid login credentials" eq_refl
              (or_intror (ex_intro _ _ (conj eq_refl eq_refl))))
    as (pg' & Hrun & _ & Hl & _ & _ & Hlog).
  exists pg'. split; [exact Hrun|]. split; [exact Hl | exact Hlog].
Defined.

(** X17. A sign-in the backend accepts returns the new session whether
    or not the project list could be loaded. [signIn] sends the sign-in
    call, runs [ensureBoardsListLoaded] to its end, and then calls the
    registered callback with the new session: the adapter state it leaves
    is the one [ensureBoardsListLoaded] left, plus that call. So after a
    failed select the callback sees the session with the list that was
    cached before. *)
Theorem signIn_success
    (email password : string) (a : AuthAnswer)
    (current : option Session) (resp : Response (list BoardsRow)) (pg : Page) :
  isCloudEnabled (adapter pg) = true → answer_error a = None →
  ∃ st1 pg',
    ensureBoardsListLoaded current resp (adapter pg) = (Return tt, st1)
    ∧ signIn email password (Return a) current resp pg
        = (SignedIn (answer_session a), pg')
    ∧ adapter pg' = notify (answer_session a) st1
    ∧ sent pg' = sent pg ++ [SignInWithPassword email password]
    ∧ initConfig pg' = initConfig pg ∧ localStorage pg' = localStorage pg
    ∧ (is_Some (error resp) →
         projectsListCache (adapter pg') = projectsListCache (adapter pg)).
Proof.
  intros Hen He. unfold signIn. rewrite Hen, He. cbn [negb].
  destruct (tryLoadList_spec current resp
              (send (SignInWithPassword email password) pg))
    as (st1 & Hrun & ->).
  simpl in Hrun. exists st1. eexists. split; [exact Hrun|].
  split; [reflexivity|]. simpl. do 4 (split; [done|]).
  intros [e Herr]. unfold ensureBoardsListLoaded in Hrun.
  rewrite Hen in Hrun. cbn [negb] in Hrun. js_unfold.
  assert (projectsListCache st1 = projectsListCache (adapter pg)) as Hl.
  { destruct current; simpl in Hrun; [rewrite Herr in Hrun|];
      simpl in Hrun; by simplify_eq. }
  unfold notify. by destruct (authCallback st1).
Qed.

Lemma signIn_success_witness :
  ∃ pg', signIn "bob@b.c" "pw"
           (Return {| answer_session := Some bob; answer_error := None |})
           (Some bob) (failed "500") alicePage = (SignedIn (Some bob), pg')
    ∧ last (log (adapter pg')) = Some (Notify 0 (Some bob) [aliceBoard] ∅).
Proof.
  destruct (signIn_success "bob@b.c" "pw"
              {| answer_session := Some bob; answer_error := None |}
              (Some bob) (failed "500") alicePage eq_refl eq_refl)
    as (st1 & pg' & Hload & Hrun & Had & _).
  exists pg'. split; [exact Hrun|]. rewrite Had.
  vm_compute in Hload. injection Hload as <-. reflexivity.
Defined.

(** X18. [signUp] without a client answers "Supabase not configured" and
    does nothing. With a client it sends one sign-up call. If that call
    throws, [signUp] throws; if it answers with an error, [signUp]
    returns the error; neither prints a warning, and in both the adapter
    state is untouched. If it answers without a session (the address is
    still to be confirmed) [signUp] returns no session, with the adapter
    state untouched and no callback called. Only with a session does it
    run [ensureBoardsListLoaded] and then call the callback with that
    session. *)
Theorem signUp_outcomes
    (email password : string) (attempt : Completion AuthAnswer)
    (current : option Session) (resp : Response (list BoardsRow)) (pg : Page) :
  (isCloudEnabled (adapter pg) = false →
     signUp email password attempt current resp pg
       = (Return (SignFailed "Supabase not configured"), pg))
  ∧ (isCloudEnabled (adapter pg) = true →
       let '(r, pg') := signUp email password attempt current resp pg in
       sent pg' = sent pg ++ [SignUp email password]
       ∧ initConfig pg' = initConfig pg ∧ localStorage pg' = localStorage pg
       ∧ match attempt with
         | Throw what => r = Throw what ∧ adapter pg' = adapter pg
         | Return a =>
             match answer_error a, answer_session a with
             | Some e, _ => r = Return (SignFailed e) ∧ adapter pg' = adapter pg
             | None, None => r = Return (SignedIn None) ∧ adapter pg' = adapter pg
             | None, Some s =>
                 r = Return (SignedIn (Some s))
                 ∧ ∃ st1, ensureBoardsListLoaded current resp (adapter pg)
                            = (Return tt, st1)
                          ∧ adapter pg' = notify (Some s) st1
             end
         end).
Proof.
  unfold signUp. split; [by intros ->|]. intros ->. cbn [negb].
  destruct attempt as [a|what]; [|done].
  destruct (answer_error a) as [e|]; [done|].
  destruct (answer_session a) as [s|]; [|done].
  destruct (tryLoadList_spec current resp (send (SignUp email password) pg))
    as (st1 & Hrun & ->).
  simpl. do 3 (split; [done|]). split; [done|]. by exists st1.
Qed.

Lemma signUp_outcomes_witness :
  let '(r, pg') :=
    signUp "a@b.c" "pw"
      (Return {| answer_session := None; answer_error := None |})
      None (failed "500") alicePage in
  r = Return (SignedIn None) ∧ adapter pg' = adapter alicePage
  ∧ sent pg' = [SignUp "a@b.c" "pw"].
Proof.
  destruct (signUp_outcomes "a@b.c" "pw"
              (Return {| answer_session := None; answer_error := None |})
              None (failed "500") alicePage) as [_ H].
  specialize (H eq_refl).
  destruct (signUp "a@b.c" "pw"
              (Return {| answer_session := None; answer_error := None |})
              None (failed "500") alicePage) as [r pg'].
  destruct H as (Hs & _ & _ & Hr & Ha).
  split; [exact Hr|]. split; [exact Ha | exact Hs].
Defined.

(** ** Applying a configuration *)

(** X19. [init] ignores a configuration that lacks a field or holds
    placeholder text. Given any other configuration that is not
    the one already applied, it records the trimmed pair as [initConfig]
    and, if the client library is loaded and [createClient] returns,
    makes a client from that pair, subscribes the listener, asks for the
    session and calls the registered callback with it. It never touches
    the two caches or the registered callback: what was cached under the
    previous client is still read under the new one. If the library is
    not loaded, or [createClient] throws, the client stays what it was. *)
Theorem init_outcomes
    (c : Client) (created : Completion unit) (current : option Session)
    (pg : Page) :
  (url c = "" ∨ anonKey c = "" ∨ includes (url c) "YOUR_PROJECT" = true
     ∨ includes (anonKey c) "YOUR_ANON" = true →
     init (Some c) created current pg = (Return tt, pg))
  ∧ (url c ≠ "" → anonKey c ≠ "" →
     includes (url c) "YOUR_PROJECT" = false →
     includes (anonKey c) "YOUR_ANON" = false →
     supabase (adapter pg) = None
       ∨ initConfig pg ≠ Some {| url := trim (url c); anonKey := trim (anonKey c) |} →
     let uk := {| url := trim (url c); anonKey := trim (anonKey c) |} in
     let '(r, pg') := init (Some c) created current pg in
     initConfig pg' = Some uk ∧ localStorage pg' = localStorage pg
     ∧ projectsListCache (adapter pg') = projectsListCache (adapter pg)
     ∧ boardDataCache (adapter pg') = boardDataCache (adapter pg)
     ∧ authCallback (adapter pg') = authCallback (adapter pg)
     ∧ heap (adapter pg') = heap (adapter pg)
     ∧ if library pg then
         match created with
         | Return _ =>
             r = Return tt ∧ supabase (adapter pg') = Some uk
             ∧ sent pg' = sent pg ++ [CreateClient (url uk) (anonKey uk);
                                      OnAuthStateChange]
             ∧ log (adapter pg') = log (adapter pg) ++ AuthGetSession ::
                 match authCallback (adapter pg) with
                 | Some cb =>
                     [Notify cb current (projectsListCache (adapter pg))
                        (boardDataCache (adapter pg))]
                 | None => []
                 end
         | Throw what =>
             r = Throw what ∧ adapter pg' = adapter pg
             ∧ sent pg' = sent pg ++ [CreateClient (url uk) (anonKey uk)]
         end
       else r = Return tt ∧ adapter pg' = adapter pg ∧ sent pg' = sent pg).
Proof.
  unfold init. split.
  - intros [-> | [-> | [-> | ->]]]; simpl; rewrite ?orb_true_r; try done.
    + by destruct (_ || _).
    + by destruct (_ || _).
  - intros Hu Hk Hpu Hpk Hnew.
    apply String.eqb_neq in Hu, Hk. rewrite Hu, Hk, Hpu, Hpk. cbn [orb].
    assert (match initConfig pg, supabase (adapter pg) with
            | Some ic, Some _ =>
                String.eqb (url ic) (trim (url c))
                && String.eqb (anonKey ic) (trim (anonKey c))
            | _, _ => false
            end = false) as ->.
    { destruct (initConfig pg) as [[iu ik]|] eqn:Hi; [|done].
      destruct (supabase (adapter pg)); [|done].
      destruct Hnew as [? | Hne]; [done|]. simpl.
      destruct (String.eqb iu _) eqn:E1; [|done].
      destruct (String.eqb ik _) eqn:E2; [|done].
      apply String.eqb_eq in E1, E2. subst. done. }
    cbv zeta. change (library (set_initConfig _ pg)) with (library pg).
    destruct (library pg).
    + destruct created as [[]|what]; simpl; [|done].
      unfold notify. simpl.
      destruct (authCallback (adapter pg)) eqn:Hcb; simpl;
        by rewrite <- ?app_assoc.
    + done.
Qed.

Lemma init_outcomes_witness :
  let '(r, pg') :=
    init (Some {| url := " https://other.supabase.co "; anonKey := "k2" |})
      (Return tt) None alicePage in
  r = Return tt
  ∧ supabase (adapter pg')
      = Some {| url := "https://other.supabase.co"; anonKey := "k2" |}
  ∧ loadProjectsList (adapter pg') = Some [aliceBoard].
Proof.
  destruct (init_outcomes {| url := " https://other.supabase.co "; anonKey := "k2" |}
              (Return tt) None alicePage) as [_ H].
  assert (initConfig alicePage
            ≠ Some {| url := trim " https://other.supabase.co "; anonKey := trim "k2" |})
    as Hother.
  { intros E.
    apply (f_equal (λ o, match o with
                         | Some c => String.eqb (anonKey c) "k2"
                         | None => false
                         end)) in E.
    vm_compute in E. discriminate E. }
  specialize (H ltac:(discriminate) ltac:(discriminate) eq_refl eq_refl
                (or_intror Hother)).
  destruct (init (Some {| url := " https://other.supabase.co "; anonKey := "k2" |})
              (Return tt) None alicePage) as [r pg'].
  destruct H as (_ & _ & Hl & _ & _ & _ & Hr & Hs & _).
  split; [exact Hr|]. split; [exact Hs|].
  unfold loadProjectsList, isCloudEnabled. rewrite Hs, Hl. reflexivity.
Defined.

(** X20. Applying a configuration twice is applying it once: after a call
    of [init] that returned, a second call with the same configuration
    returns the page as the first left it, whatever [createClient] and
    the backend would answer: no second client is made, the listener is
    not subscribed again, the callback is not called again. *)
Theorem init_idempotent
    (config : option Client) (created created' : Completion unit)
    (current current' : option Session) (pg pg1 : Page) :
  init config created current pg = (Return tt, pg1) →
  init config created' current' pg1 = (Return tt, pg1).
Proof.
  unfold init. destruct config as [c|]; [|by intros [= <-]].
  destruct (String.eqb (url c) "" || String.eqb (anonKey c) "");
    [by intros [= <-]|].
  destruct (includes (url c) "YOUR_PROJECT" || includes (anonKey c) "YOUR_ANON");
    [by intros [= <-]|].
  destruct (match initConfig pg, supabase (adapter pg) with
            | Some ic, Some _ =>
                String.eqb (url ic) (trim (url c))
                && String.eqb (anonKey ic) (trim (anonKey c))
            | _, _ => false
            end) eqn:Hg.
  { intros [= <-]. by rewrite Hg. }
  cbv zeta. change (library (set_initConfig _ pg)) with (library pg).
  destruct (library pg) eqn:Hlib.
  - destruct created as [[]|what]; [|done]. intros [= <-]. simpl.
    assert (supabase (notify current (emit AuthGetSession (set_supabase
              (Some {| url := trim (url c); anonKey := trim (anonKey c) |})
              (adapter pg))))
            = Some {| url := trim (url c); anonKey := trim (anonKey c) |}) as ->.
    { unfold notify. simpl. by destruct (authCallback (adapter pg)). }
    by rewrite !String.eqb_refl.
  - intros [= <-]. simpl. rewrite !String.eqb_refl. simpl.
    destruct (supabase (adapter pg)); [done|]. by rewrite Hlib.
Qed.

Lemma init_idempotent_witness :
  let pg1 := (init (Some {| url := "https://x.supabase.co"; anonKey := "k" |})
                (Return tt) (Some alice) blankPage).2 in
  init (Some {| url := "https://x.supabase.co"; anonKey := "k" |})
    (Throw "again") None pg1 = (Return tt, pg1).
Proof.
  apply (init_idempotent _ (Return tt) (Throw "again") (Some alice) None blankPage).
  reflexivity.
Defined.

(** ** Text: white space, character classes and the two patterns *)

Lemma every_app P a b : every P (a +:+ b) = every P a && every P b.
Proof. induction a as [|c a IH]; simpl; [done|]. by rewrite IH, andb_assoc. Qed.

Lemma every_impl (P Q : Ascii.ascii → bool) s :
  (∀ c, P c = true → Q c = true) → every P s = true → every Q s = true.
Proof.
  intros HPQ. induction s as [|c s IH]; simpl; [done|].
  intros [Hc Hs]%andb_true_iff. by rewrite (HPQ c Hc), IH.
Qed.

Lemma span_every P s : every P (span P s).1 = true.
Proof.
  induction s as [|c s IH]; simpl; [done|].
  destruct (P c) eqn:Hc; [|done].
  destruct (span P s) as [a b]. simpl in *. by rewrite Hc, IH.
Qed.

Lemma span_app P a b :
  every P a = true →
  match b with String c _ => P c = false | EmptyString => True end →
  span P (a +:+ b) = (a, b).
Proof.
  intros Ha Hb. induction a as [|c a IH]; simpl in *.
  - destruct b as [|c b]; simpl; [done|]. by rewrite Hb.
  - apply andb_true_iff in Ha as [Hc Ha]. by rewrite Hc, (IH Ha).
Qed.

Lemma alnum_not_dot c : is_alnum c = true → not_dot c = true.
Proof. destruct c as [[] [] [] [] [] [] [] []]; vm_compute; congruence. Qed.

Lemma alnum_not_underscore c :
  is_alnum c = true → negb (Ascii.nat_of_ascii c =? 95) = true.
Proof. destruct c as [[] [] [] [] [] [] [] []]; vm_compute; congruence. Qed.

Lemma projectRef_eq url :
  projectRef url
  = match match after_prefix "/project/" url with
          | Some rest =>
              let ref := (span is_alnum rest).1 in
              if String.eqb ref "" then None else Some ref
          | None => None
          end, url with
    | Some ref, _ => Some ref
    | None, String _ url' => projectRef url'
    | None, EmptyString => None
    end.
Proof. by destruct url. Qed.

Lemma projectRef_alnum url ref :
  projectRef url = Some ref → ref ≠ "" ∧ every is_alnum ref = true.
Proof.
  induction url as [|c url IH]; rewrite projectRef_eq.
  - done.
  - destruct (after_prefix "/project/" (String c url)) as [rest|]; [|exact IH].
    cbv zeta. destruct (String.eqb (span is_alnum rest).1 "") eqn:E; [exact IH|].
    intros [= <-]. split; [by apply String.eqb_neq|apply span_every].
Qed.

Lemma prefix_every P sub s :
  String.prefix sub s = true → every P s = true → every P sub = true.
Proof.
  revert s. induction sub as [|a sub IH]; intros [|b s]; simpl; try done.
  destruct (Ascii.ascii_dec a b) as [->|]; [|done].
  intros Hp [Hb Hs]%andb_true_iff. by rewrite Hb, (IH s).
Qed.

Lemma includes_every P s sub :
  every P s = true → every P sub = false → includes s sub = false.
Proof.
  intros Hs Hsub. induction s as [|c s IH]; cbn [includes].
  - destruct (String.prefix sub "") eqn:Hp; [|done].
    by rewrite (prefix_every P _ _ Hp) in Hsub.
  - simpl in Hs. apply andb_true_iff in Hs as [Hc Hs].
    rewrite (IH Hs), orb_false_r.
    destruct (String.prefix sub (String c s)) eqn:Hp; [|done].
    rewrite (prefix_every P _ _ Hp) in Hsub; [done|]. simpl. by rewrite Hc, Hs.
Qed.




Lemma trimStart_fixed s :
  match s with String c _ => is_space c = false | EmptyString => True end →
  trimStart s = s.
Proof. destruct s as [|c s]; simpl; [done|]. by intros ->. Qed.

Lemma trim_fixed s :
  match s with String c _ => is_space c = false | EmptyString => True end →
  trimEnd s = s → trim s = s.
Proof. intros Hh He. unfold trim. by rewrite (trimStart_fixed s Hh). Qed.


Lemma trimEnd_app a b : trimEnd b ≠ "" → trimEnd (a +:+ b) = a +:+ trimEnd b.
Proof.
  intros Hb. induction a as [|c a IH]; [done|].
  change (trimEnd (String c a +:+ b)) with
    (match trimEnd (a +:+ b) with
     | EmptyString => if is_space c then EmptyString else String c EmptyString
     | t' => String c t'
     end).
  rewrite IH. change (String c a +:+ trimEnd b) with (String c (a +:+ trimEnd b)).
  destruct (a +:+ trimEnd b) eqn:E; [|done].
  destruct a; simpl in E; [done|discriminate].
Qed.

Lemma dashboard_url ref :
  ref ≠ "" → every is_alnum ref = true →
  let u := "https://" +:+ ref +:+ ".supabase.co" in
  isProjectUrl u = true ∧ trim u = u ∧ includes u "YOUR_PROJECT" = false.
Proof.
  intros Hne Hall. cbv zeta. split; [|split].
  - unfold isProjectUrl.
    change (after_prefix "https://" ("https://" +:+ ref +:+ ".supabase.co"))
      with (Some (ref +:+ ".supabase.co")).
    cbv beta iota.
    rewrite span_app; [| by apply (every_impl is_alnum), Hall; apply alnum_not_dot | done].
    apply String.eqb_neq in Hne. by rewrite Hne.
  - apply trim_fixed; [done|].
    assert (trimEnd ".supabase.co" = ".supabase.co") as Ht by reflexivity.
    assert (trimEnd (ref +:+ ".supabase.co") = ref +:+ ".supabase.co") as Hr.
    { rewrite trimEnd_app; by rewrite Ht. }
    rewrite trimEnd_app; rewrite Hr; [done|]. by destruct ref.
  - apply (includes_every (λ c, negb (Ascii.nat_of_ascii c =? 95))); [|done].
    rewrite !every_app. rewrite (every_impl is_alnum _ ref alnum_not_underscore Hall).
    done.
Qed.

(** X21. The dashboard link is rewritten to a URL that the next check
    accepts: whenever [/\/project\/([a-z0-9]+)/i] matches, its group is
    not empty and made of letters and digits, and
    [https://<group>.supabase.co] passes the test of the project URL. So a
    dashboard link with a project part is never refused for its form. *)
Theorem dashboard_rewrite_passes (url0 ref : string) :
  projectRef url0 = Some ref →
  ref ≠ "" ∧ every is_alnum ref = true
  ∧ isProjectUrl ("https://" +:+ ref +:+ ".supabase.co") = true.
Proof.
  intros Href. destruct (projectRef_alnum _ _ Href) as [Hne Hall].
  by destruct (dashboard_url ref Hne Hall) as (Hok & _ & _).
Qed.

Lemma dashboard_rewrite_passes_witness :
  projectRef "https://supabase.com/dashboard/project/abCD12/settings/api"
    = Some "abCD12"
  ∧ isProjectUrl "https://abCD12.supabase.co" = true.
Proof.
  split; [reflexivity|].
  exact (proj2 (proj2 (dashboard_rewrite_passes
    "https://supabase.com/dashboard/project/abCD12/settings/api" "abCD12"
    eq_refl))).
Defined.

(** ** Saving a configuration *)







